(** * ColorTrace: colour conversion, clustering and palette ranking

    A shallow embedding of the colour core of ColorTrace
    (utils.js, colorExtractor.js, app.js) and the proofs of its
    specification.

    Conventions of the embedding.
    - A JavaScript number that reaches the colour core is an integer or
      [NaN]: canvas bytes, results of [parseInt], counters.  It is modelled
      by [number], an integer of [Z] or [NaN].
    - A JavaScript string is a [string] of ASCII characters; code units
      above 127 are outside the model of [toUpperCase] and of the white
      space of [parseInt].
    - The [Map] of clusters is an association list in insertion order with
      unique keys, which is the iteration order of a JavaScript [Map].
    - Mutation of [this.colorMap] and of [currentColors] is explicit state
      passing. *)

From Stdlib Require Import ZArith NArith Bool List String Ascii Lia.
From Stdlib Require Import DecimalN DecimalString HexadecimalString.
From Stdlib Require Import Permutation Sorted.
From Stdlib Require Import Reals.
Import ListNotations.

Local Open Scope string_scope.
Local Open Scope Z_scope.

(* ================================================================= *)
(** * Part I: the program *)
(* ================================================================= *)

(** ** JavaScript primitives used by the sources *)

Module Js.

(** Integer-valued numbers and [NaN]. *)
Inductive number : Type :=
| Int (z : Z)
| NaN.

(** [Math.round] is the identity on integers and on [NaN]. *)
Definition Math_round (n : number) : number := n.

(** [Number.prototype.toString(16)]: lower-case digits, a leading minus
    sign for negative values, ["NaN"] for [NaN]. *)
Definition toString16 (n : number) : string :=
  match n with
  | NaN => "NaN"
  | Int z =>
      if z <? 0
      then "-" ++ HexadecimalString.NilZero.string_of_uint (N.to_hex_uint (Z.to_N (- z)))
      else HexadecimalString.NilZero.string_of_uint (N.to_hex_uint (Z.to_N z))
  end.

Definition isLower (c : ascii) : bool :=
  let n := nat_of_ascii c in (97 <=? n)%nat && (n <=? 122)%nat.

Definition upperChar (c : ascii) : ascii :=
  if isLower c then ascii_of_nat (nat_of_ascii c - 32) else c.

(** [String.prototype.toUpperCase]. *)
Fixpoint toUpperCase (s : string) : string :=
  match s with
  | EmptyString => EmptyString
  | String c s' => String (upperChar c) (toUpperCase s')
  end.

(** [s.replace(c, '')] with a one-character string pattern: only the first
    occurrence is removed, wherever it stands. *)
Fixpoint removeFirst (c : ascii) (s : string) : string :=
  match s with
  | EmptyString => EmptyString
  | String d s' => if Ascii.eqb d c then s' else String d (removeFirst c s')
  end.

(** [s.split('').map(c => c + c).join('')]. *)
Fixpoint doubleChars (s : string) : string :=
  match s with
  | EmptyString => EmptyString
  | String c s' => String c (String c (doubleChars s'))
  end.

(** [s.startsWith('#')] and the like. *)
Definition startsWithChar (c : ascii) (s : string) : bool :=
  match s with
  | String d _ => Ascii.eqb d c
  | EmptyString => false
  end.

(** *** [parseInt(s, 16)] *)

Definition isWhiteSpace (c : ascii) : bool :=
  let n := nat_of_ascii c in
  ((9 <=? n)%nat && (n <=? 13)%nat) || (n =? 32)%nat.

Definition hexDigitValue (c : ascii) : option Z :=
  let n := nat_of_ascii c in
  if (48 <=? n)%nat && (n <=? 57)%nat then Some (Z.of_nat n - 48)
  else if (97 <=? n)%nat && (n <=? 102)%nat then Some (Z.of_nat n - 87)
  else if (65 <=? n)%nat && (n <=? 70)%nat then Some (Z.of_nat n - 55)
  else None.

Fixpoint trimStart (s : string) : string :=
  match s with
  | String c s' => if isWhiteSpace c then trimStart s' else s
  | EmptyString => EmptyString
  end.

(** The longest prefix of hexadecimal digits, read left to right;
    [None] when the prefix is empty. *)
Fixpoint hexPrefix (acc : option Z) (s : string) : option Z :=
  match s with
  | EmptyString => acc
  | String c s' =>
      match hexDigitValue c with
      | None => acc
      | Some d =>
          hexPrefix (Some (match acc with Some a => 16 * a + d | None => d end)) s'
      end
  end.

Definition strip0x (s : string) : string :=
  match s with
  | String "0" (String "x" s') => s'
  | String "0" (String "X" s') => s'
  | _ => s
  end.

Definition parseInt16 (s : string) : number :=
  let s := trimStart s in
  let '(sign, s) :=
    match s with
    | String "-" s' => (-1, s')
    | String "+" s' => (1, s')
    | _ => (1, s)
    end in
  match hexPrefix None (strip0x s) with
  | Some v => Int (sign * v)
  | None => NaN
  end.

(** *** Arithmetic, with [NaN] absorbing *)

Definition sub (x y : number) : number :=
  match x, y with
  | Int a, Int b => Int (a - b)
  | _, _ => NaN
  end.

Definition add (x y : number) : number :=
  match x, y with
  | Int a, Int b => Int (a + b)
  | _, _ => NaN
  end.

(** [Math.pow(x, 2)]. *)
Definition Math_pow2 (x : number) : number :=
  match x with
  | Int a => Int (a * a)
  | NaN => NaN
  end.

(** [Math.sqrt(x) < t] for an integer [t].  The square root of an integer
    is below an integer bound exactly when its integer part is; a
    comparison with [NaN] is false, and so is the one with the square
    root of a negative number. *)
Definition Math_sqrt_lt (x : number) (t : Z) : bool :=
  match x with
  | Int a => (0 <=? a) && (Z.sqrt a <? t)
  | NaN => false
  end.

(** *** [toFixed(2)] of a percentage

    [((count / total) * 100).toFixed(2)] for integers [count >= 0] and
    [total > 0], in exact arithmetic: the closest number of hundredths,
    the larger one on a tie, printed with two decimals. *)
Definition percentHundredths (count total : Z) : Z :=
  (20000 * count + total) / (2 * total).

Definition decimal (n : Z) : string :=
  DecimalString.NilZero.string_of_uint (N.to_uint (Z.to_N n)).

Definition twoDigits (n : Z) : string :=
  if n <? 10 then "0" ++ decimal n else decimal n.

Definition fixed2 (hundredths : Z) : string :=
  decimal (hundredths / 100) ++ "." ++ twoDigits (hundredths mod 100).

Definition percentToFixed2 (count total : Z) : string :=
  fixed2 (percentHundredths count total).

(** Not in the sources: the inverse of [fixed2], which gives the value, in
    hundredths, of a string with two decimals. *)
Definition readDecimal (s : string) : option Z :=
  match DecimalString.NilZero.uint_of_string s with
  | Some d => Some (Z.of_N (N.of_uint d))
  | None => None
  end.

Definition readFixed2 (s : string) : option Z :=
  let n := String.length s in
  match readDecimal (substring 0 (n - 3) s),
        String.get (n - 3) s,
        readDecimal (substring (n - 2) 2 s) with
  | Some i, Some "."%char, Some f => Some (100 * i + f)
  | _, _, _ => None
  end.

(** *** [Array.prototype.sort(cmp)]: a stable sort; [a] is placed before
    [b] when [cmp a b < 0] and they keep their order when [cmp a b = 0]. *)
Section Sort.
Context {A : Type} (cmp : A -> A -> Z).

Fixpoint insert (x : A) (l : list A) : list A :=
  match l with
  | [] => [x]
  | y :: l' => if cmp x y <=? 0 then x :: l else y :: insert x l'
  end.

Fixpoint Array_sort (l : list A) : list A :=
  match l with
  | [] => []
  | x :: l' => insert x (Array_sort l')
  end.
End Sort.

(** [Array.prototype.slice(0, n)]. *)
Definition Array_slice0 {A : Type} (n : nat) (l : list A) : list A := firstn n l.

(** *** Completions: a call returns a value or throws. *)
Inductive completion (A : Type) : Type :=
| Return (v : A)
| Throw (name : string).
Arguments Return {A} v.
Arguments Throw {A} name.

End Js.

(** ** Regular expressions: the fragment used by [isValidHex] *)

Module Regex.

Inductive regex : Type :=
| Void
| Eps
| Class (p : ascii -> bool)
| Cat (a b : regex)
| Alt (a b : regex).

(** [r?] and [r{n}]. *)
Definition Opt (r : regex) : regex := Alt Eps r.

Fixpoint Times (n : nat) (r : regex) : regex :=
  match n with
  | O => Eps
  | S n' => Cat r (Times n' r)
  end.

Fixpoint nullable (r : regex) : bool :=
  match r with
  | Void => false
  | Eps => true
  | Class _ => false
  | Cat a b => nullable a && nullable b
  | Alt a b => nullable a || nullable b
  end.

(** Brzozowski derivative. *)
Fixpoint deriv (c : ascii) (r : regex) : regex :=
  match r with
  | Void => Void
  | Eps => Void
  | Class p => if p c then Eps else Void
  | Cat a b =>
      if nullable a
      then Alt (Cat (deriv c a) b) (deriv c b)
      else Cat (deriv c a) b
  | Alt a b => Alt (deriv c a) (deriv c b)
  end.

(** [/^r$/.test(s)]: the whole of [s] is matched by [r]. *)
Fixpoint test (r : regex) (s : string) : bool :=
  match s with
  | EmptyString => nullable r
  | String c s' => test (deriv c r) s'
  end.

(** The language of a regular expression. *)
Fixpoint lang (r : regex) (s : string) : Prop :=
  match r with
  | Void => False
  | Eps => s = ""
  | Class p => exists c, s = String c "" /\ p c = true
  | Cat a b => exists s1 s2, s = s1 ++ s2 /\ lang a s1 /\ lang b s2
  | Alt a b => lang a s \/ lang b s
  end.

(** The strings all of whose characters are in the class [p]. *)
Fixpoint allChars (p : ascii -> bool) (s : string) : Prop :=
  match s with
  | EmptyString => True
  | String c s' => p c = true /\ allChars p s'
  end.

End Regex.

(** ** utils.js *)

Module Utils.
Import Js.

Record RGB : Type := mkRGB { r : number; g : number; b : number }.

(** The [percentage] field of a colour object: the number [0] before the
    percentages are computed, a string afterwards. *)
Inductive percentage_t : Type :=
| PctNumber (n : Z)
| PctString (s : string).

(** A colour object [{hex, rgb, count, percentage}]. *)
Module Color.
Record t : Type := mk { hex : string; rgb : RGB; count : Z; percentage : percentage_t }.
End Color.

(** The value [{rgb, count}] of an entry of the colour map. *)
Module Cluster.
Record t : Type := mk { rgb : RGB; count : Z }.
End Cluster.

(** A JavaScript [Map] from hex keys to clusters, in insertion order. *)
Definition ColorMap : Type := list (string * Cluster.t).

(** [Map.prototype.set]: the value of an existing key is replaced where it
    stands, a new key is added at the end. *)
Fixpoint Map_set (m : ColorMap) (k : string) (v : Cluster.t) : ColorMap :=
  match m with
  | [] => [(k, v)]
  | (k', v') :: m' =>
      if String.eqb k' k then (k', v) :: m' else (k', v') :: Map_set m' k v
  end.

Definition toHex (n : number) : string :=
  let hex := toString16 (Math_round n) in
  if (String.length hex =? 1)%nat then "0" ++ hex else hex.

Definition rgbToHex (r g b : number) : string :=
  toUpperCase ("#" ++ toHex r ++ toHex g ++ toHex b).

(** The first statements of [hexToRgb]: the first [#] is removed and a
    string of three characters has each of them doubled. *)
Definition normalizeHex (hex : string) : string :=
  let hex := removeFirst "#" hex in
  if (String.length hex =? 3)%nat then doubleChars hex else hex.

Definition hexToRgb (hex : string) : RGB :=
  let hex := normalizeHex hex in
  let r := parseInt16 (substring 0 2 hex) in
  let g := parseInt16 (substring 2 2 hex) in
  let b := parseInt16 (substring 4 2 hex) in
  mkRGB r g b.

(** The body of [hexToRgb] has no [throw] and none of its operations throws
    on a string: every call completes with [Return]. *)
Definition hexToRgb_completion (hex : string) : completion RGB :=
  Return (hexToRgb hex).

Definition areColorsSimilar (color1 color2 : RGB) (threshold : Z) : bool :=
  Math_sqrt_lt
    (add (add (Math_pow2 (sub (r color1) (r color2)))
              (Math_pow2 (sub (g color1) (g color2))))
         (Math_pow2 (sub (b color1) (b color2))))
    threshold.

Definition isHexDigit (c : ascii) : bool :=
  let n := nat_of_ascii c in
  ((65 <=? n)%nat && (n <=? 70)%nat)
  || ((97 <=? n)%nat && (n <=? 102)%nat)
  || ((48 <=? n)%nat && (n <=? 57)%nat).

(** [/^#?([A-Fa-f0-9]{6}|[A-Fa-f0-9]{3})$/] *)
Definition hexPattern : Regex.regex :=
  Regex.Cat (Regex.Opt (Regex.Class (Ascii.eqb "#")))
            (Regex.Alt (Regex.Times 6 (Regex.Class isHexDigit))
                       (Regex.Times 3 (Regex.Class isHexDigit))).

Definition isValidHex (hex : string) : bool := Regex.test hexPattern hex.

Definition sortColorsByUsage (colorMap : ColorMap) : list Color.t :=
  Array_sort (fun a b => Color.count b - Color.count a)
    (map (fun '(hex, data) =>
            Color.mk hex (Cluster.rgb data) (Cluster.count data) (PctNumber 0))
         colorMap).

End Utils.

(** ** colorExtractor.js *)

Module ColorExtractor.
Import Js Utils.

(** The fields of a [ColorExtractor] object. *)
Record t : Type := mk { colorMap : ColorMap; similarityThreshold : Z }.

Definition constructor : t := mk [] 30.

Definition clear (this : t) : t := mk [] (similarityThreshold this).

(** The [for ... of] loop of [addColor]: the entries are visited in
    insertion order; at the first one whose colour is similar its count is
    incremented and the loop is left.  [None] stands for [found = false]
    at the end of the loop. *)
Fixpoint scan (rgb : RGB) (threshold : Z) (entries : ColorMap) : option ColorMap :=
  match entries with
  | [] => None
  | (existingHex, data) :: rest =>
      if areColorsSimilar rgb (Cluster.rgb data) threshold
      then Some ((existingHex, Cluster.mk (Cluster.rgb data) (Cluster.count data + 1)) :: rest)
      else option_map (cons (existingHex, data)) (scan rgb threshold rest)
  end.

Definition addColor (this : t) (r g b : number) : t :=
  let hex := rgbToHex r g b in
  let rgb := mkRGB r g b in
  match scan rgb (similarityThreshold this) (colorMap this) with
  | Some colorMap' => mk colorMap' (similarityThreshold this)
  | None =>
      mk (Map_set (colorMap this) hex (Cluster.mk rgb 1)) (similarityThreshold this)
  end.

(** Feeding a sequence of colours, one [addColor] call each. *)
Definition addColors (this : t) (observations : list RGB) : t :=
  fold_left (fun this rgb => addColor this (r rgb) (g rgb) (b rgb)) observations this.

(** The block shared by the three [analyze]/[extract] functions:
    [sortColorsByUsage], [reduce] to the total count, and the [forEach]
    that sets the percentages. *)
Definition totalCount (colors : list Color.t) : Z :=
  fold_left (fun sum c => sum + Color.count c) colors 0.

Definition withPercentages (colors : list Color.t) : list Color.t :=
  let totalCount := totalCount colors in
  map (fun color =>
         Color.mk (Color.hex color) (Color.rgb color) (Color.count color)
           (PctString (percentToFixed2 (Color.count color) totalCount)))
      colors.

Definition rankedColors (this : t) : list Color.t :=
  withPercentages (sortColorsByUsage (colorMap this)).

(** *** Pixel sampling of [analyzeImage] *)

(** A pixel of [ImageData.data]: four bytes, red, green, blue, alpha. *)
Record pixel : Type := mkPixel { red : Z; green : Z; blue : Z; alpha : Z }.

(** The elements at positions [0], [k], [2k], ... ([skip] is the number of
    elements still to pass over). *)
Fixpoint everyNth {A : Type} (k skip : nat) (l : list A) : list A :=
  match l with
  | [] => []
  | x :: l' =>
      match skip with
      | O => x :: everyNth k (k - 1) l'
      | S skip' => everyNth k skip' l'
      end
  end.

Section Image.
(** [getLuminance(r, g, b) < 0.05 || getLuminance(r, g, b) > 0.95]: a
    floating-point test, kept abstract. *)
Variable extremeLuminance : Z -> Z -> Z -> bool.

Definition sampleRate : nat := 5.

Definition samplePixels (pixels : list pixel) : list RGB :=
  map (fun p => mkRGB (Int (red p)) (Int (green p)) (Int (blue p)))
    (filter (fun p => negb (alpha p <? 128)
                      && negb (extremeLuminance (red p) (green p) (blue p)))
       (everyNth sampleRate 0 pixels)).

(** [analyzeImage], from the pixel data of the canvas on. *)
Definition analyzeImage (this : t) (pixels : list pixel) : t * list Color.t :=
  let this := clear this in
  let this := addColors this (samplePixels pixels) in
  (this, Array_slice0 50 (rankedColors this)).
End Image.

(** [extractFromCurrentPage], from the colours that [parseColor] returned
    for the computed styles, in document order. *)
Definition extractFromCurrentPage (this : t) (parsed : list RGB) : t * list Color.t :=
  let this := clear this in
  let this := addColors this parsed in
  (this, Array_slice0 30 (rankedColors this)).

(** [analyzeSVG], from the colours that [parseColor] returned for the
    [fill], [stroke] and [style] attributes, in document order. *)
Definition analyzeSVG (this : t) (parsed : list RGB) : t * list Color.t :=
  let this := clear this in
  let this := addColors this parsed in
  (this, rankedColors this).

End ColorExtractor.

(** ** app.js *)

Module App.
Import Js Utils.

(** The module-level [currentColors] and the toasts shown so far. *)
Record state : Type := mkState { currentColors : list Color.t; toasts : list string }.

Definition showToast (st : state) (message : string) : state :=
  mkState (currentColors st) (toasts st ++ [message])%list.

Definition addSingleColor (st : state) (hex : string) : state :=
  let rgb := hexToRgb hex in
  let color := Color.mk (toUpperCase hex) rgb 1 (PctString "100.00") in
  let exists_ :=
    existsb (fun c => String.eqb (Color.hex c) (Color.hex color)) (currentColors st) in
  if negb exists_
  then mkState (color :: currentColors st) (toasts st)
  else showToast st "Color already in the list".

End App.

(** ** Enumerations for exhaustive checks *)

Module Finite.

(** All the characters, and all the byte values. *)
Definition allAscii : list ascii := map ascii_of_nat (seq 0 256).

Definition allBytes : list Z := map Z.of_nat (seq 0 256).

End Finite.

(** ** Boolean checks, run over every byte or every character *)

Module Checks.
Import Js Utils.

(** One channel: two upper-case digits that read back as the channel. *)
Definition byteRoundTrips (z : Z) : bool :=
  let s := toUpperCase (toHex (Int z)) in
  (String.length s =? 2)%nat
  && match parseInt16 s with
     | Int v => v =? z
     | NaN => false
     end.

(** A string that [parseInt(s, 16)] reads as a byte. *)
Definition readsAsByte (s : string) : bool :=
  match parseInt16 s with
  | Int v => (0 <=? v) && (v <=? 255)
  | NaN => false
  end.

(** Two hexadecimal digits, the first of which is [c1], read as a byte. *)
Definition pairsReadAsBytes (c1 : ascii) : bool :=
  if isHexDigit c1
  then forallb (fun c2 => implb (isHexDigit c2) (readsAsByte (String c1 (String c2 ""))))
         Finite.allAscii
  else true.

(** The two decimals printed by [fixed2] have two characters and read back. *)
Definition twoDigitsReadBack (f : Z) : bool :=
  if f <? 100
  then (String.length (twoDigits f) =? 2)%nat
       && match readDecimal (twoDigits f) with
          | Some v => v =? f
          | None => false
          end
  else true.

End Checks.

(** ** Vocabulary of the specification *)

Module Spec.
Import Js Utils ColorExtractor.

(** A colour of the data model: three integers in [[0,255]]. *)
Definition channel (n : number) : Prop :=
  exists z, n = Int z /\ 0 <= z <= 255.

Definition RGBColor (c : RGB) : Prop :=
  channel (r c) /\ channel (g c) /\ channel (b c).

Definition rgb (x y z : Z) : RGB := mkRGB (Int x) (Int y) (Int z).

(** Euclidean distance in RGB space. *)
Definition squaredDistance (x1 y1 z1 x2 y2 z2 : Z) : Z :=
  (x1 - x2) * (x1 - x2) + (y1 - y2) * (y1 - y2) + (z1 - z2) * (z1 - z2).

Definition colorDistance (x1 y1 z1 x2 y2 z2 : Z) : R :=
  sqrt (IZR (squaredDistance x1 y1 z1 x2 y2 z2)).

(** A string of hexadecimal digits. *)
Fixpoint hexDigits (s : string) : Prop :=
  match s with
  | EmptyString => True
  | String c s' => isHexDigit c = true /\ hexDigits s'
  end.

(** [s], with an optional leading [#], is exactly 3 or 6 hexadecimal
    digits. *)
Definition ValidHex (s : string) : Prop :=
  exists body,
    (s = body \/ s = String "#" body)
    /\ (String.length body = 3%nat \/ String.length body = 6%nat)
    /\ hexDigits body.

(** Exactly six hexadecimal digits. *)
Definition SixHexDigits (s : string) : Prop :=
  String.length s = 6%nat /\ hexDigits s.

(** *** Clusters *)

(** A cluster after one more observation. *)
Definition incremented (d : Cluster.t) : Cluster.t :=
  Cluster.mk (Cluster.rgb d) (Cluster.count d + 1).

(** The colour [c] is not similar, at threshold [t], to the representative
    of the entry [e]. *)
Definition dissimilar (c : RGB) (t : Z) (e : string * Cluster.t) : Prop :=
  areColorsSimilar c (Cluster.rgb (snd e)) t = false.

(** Every key is the hex code of its representative, which is a colour of
    the data model. *)
Definition keyed (e : string * Cluster.t) : Prop :=
  RGBColor (Cluster.rgb (snd e))
  /\ fst e = rgbToHex (r (Cluster.rgb (snd e))) (g (Cluster.rgb (snd e)))
                      (b (Cluster.rgb (snd e))).

(** The invariant of the extractor: the threshold is 30 and the colour map
    is keyed by the hex codes of its representatives. *)
Definition wellKeyed (this : ColorExtractor.t) : Prop :=
  similarityThreshold this = 30 /\ Forall keyed (colorMap this).

(** The key and the representative of an entry: what a call must keep. *)
Definition representative (e : string * Cluster.t) : string * RGB :=
  (fst e, Cluster.rgb (snd e)).

(** Every cluster has been observed at least once. *)
Definition counted (e : string * Cluster.t) : Prop := 1 <= Cluster.count (snd e).

(** *** Palettes *)

(** A colour object with its percentage set against a total count. *)
Definition setPercentage (total : Z) (color : Color.t) : Color.t :=
  Color.mk (Color.hex color) (Color.rgb color) (Color.count color)
    (PctString (percentToFixed2 (Color.count color) total)).

Definition sumOfCounts (colors : list Color.t) : Z :=
  fold_right (fun c acc => Color.count c + acc) 0 colors.


(** The cluster that a colour object of a palette stands for. *)
Definition clusterOf (c : Color.t) : string * Cluster.t :=
  (Color.hex c, Cluster.mk (Color.rgb c) (Color.count c)).

Definition byCountDescending (a b : Color.t) : Prop :=
  Color.count b <= Color.count a.

(** [palette] is the top [n] by count of the clusters of [m]: it has
    [min n |m|] entries in descending order of count, and together with
    entries that are all counted no more than each of its own it makes up
    the clusters of [m]. *)
Definition TopByCount (n : nat) (m : ColorMap) (palette : list Color.t) : Prop :=
  List.length palette = Nat.min n (List.length m)
  /\ StronglySorted byCountDescending palette
  /\ exists rest,
      Permutation (map clusterOf (palette ++ rest)%list) m
      /\ forall a b, In a palette -> In b rest -> Color.count b <= Color.count a.

(** The value of a [percentage] field, in hundredths of a percent. *)
Definition percentageValue (c : Color.t) : Z :=
  match Color.percentage c with
  | PctNumber n => 100 * n
  | PctString s => match readFixed2 s with Some v => v | None => 0 end
  end.

Definition sumPercentages (colors : list Color.t) : Z :=
  fold_right (fun c acc => percentageValue c + acc) 0 colors.

(** The percentages sum to 100.00 up to half a hundredth for each entry. *)
Definition SumsTo100 (colors : list Color.t) : Prop :=
  2 * Z.abs (sumPercentages colors - 10000) <= Z.of_nat (List.length colors).

End Spec.

(** ** More JavaScript primitives *)

Module JsMore.
Import Js.

Definition isUpper (c : ascii) : bool :=
  let n := nat_of_ascii c in (65 <=? n)%nat && (n <=? 90)%nat.

Definition lowerChar (c : ascii) : ascii :=
  if isUpper c then ascii_of_nat (nat_of_ascii c + 32) else c.

(** [String.prototype.toLowerCase]. *)
Fixpoint toLowerCase (s : string) : string :=
  match s with
  | EmptyString => EmptyString
  | String c s' => String (lowerChar c) (toLowerCase s')
  end.

(** [x > k] and [x < k] for an integer [k]: false on [NaN]. *)
Definition gt (x : number) (k : Z) : bool :=
  match x with
  | Int a => k <? a
  | NaN => false
  end.

Definition lt (x : number) (k : Z) : bool :=
  match x with
  | Int a => a <? k
  | NaN => false
  end.

Definition Math_abs (x : number) : number :=
  match x with
  | Int a => Int (Z.abs a)
  | NaN => NaN
  end.

(** [String.prototype.trim], on the white space of ASCII. *)
Fixpoint trimEnd (s : string) : string :=
  match s with
  | EmptyString => EmptyString
  | String c s' =>
      match trimEnd s' with
      | EmptyString => if isWhiteSpace c then EmptyString else String c EmptyString
      | t => String c t
      end
  end.

Definition trim (s : string) : string := trimEnd (trimStart s).

(** [s.startsWith(p)] and [s.endsWith(p)]. *)
Definition startsWith (p s : string) : bool := String.prefix p s.

Definition endsWith (p s : string) : bool :=
  let n := String.length s in
  let m := String.length p in
  (m <=? n)%nat && String.eqb (substring (n - m) m s) p.

(** A number inside a template literal.  An integer is printed in plain
    decimal, as JavaScript does below 10^21; larger numbers, which it prints
    with an exponent, are outside the model. *)
Definition numberToString (n : number) : string :=
  match n with
  | NaN => "NaN"
  | Int z => if z <? 0 then "-" ++ decimal (- z) else decimal z
  end.

End JsMore.

(** ** utils.js: colour names and file names *)

Module UtilsMore.
Import Js JsMore Utils.

Definition getColorName (hex : string) : string :=
  let rgb := hexToRgb hex in
  let r := r rgb in
  let g := g rgb in
  let b := b rgb in
  if gt r 200 && lt g 100 && lt b 100 then "Red"
  else if lt r 100 && gt g 200 && lt b 100 then "Green"
  else if lt r 100 && lt g 100 && gt b 200 then "Blue"
  else if gt r 200 && gt g 200 && lt b 100 then "Yellow"
  else if gt r 200 && lt g 100 && gt b 200 then "Magenta"
  else if lt r 100 && gt g 200 && gt b 200 then "Cyan"
  else if gt r 200 && gt g 200 && gt b 200 then "White"
  else if lt r 55 && lt g 55 && lt b 55 then "Black"
  else if lt (Math_abs (sub r g)) 30 && lt (Math_abs (sub g b)) 30 then "Gray"
  else if gt r 150 && gt g 100 && lt b 100 then "Orange"
  else if gt r 100 && lt g 100 && gt b 150 then "Purple"
  else if gt r 150 && gt g 150 && gt b 100 then "Beige"
  else if lt r 100 && gt g 100 && gt b 100 then "Teal"
  else "Mixed".

(** The class [[a-z0-9_\-\.]] under the [i] flag. *)
Definition isFilenameChar (c : ascii) : bool :=
  let n := nat_of_ascii c in
  ((97 <=? n)%nat && (n <=? 122)%nat)
  || ((65 <=? n)%nat && (n <=? 90)%nat)
  || ((48 <=? n)%nat && (n <=? 57)%nat)
  || (n =? 95)%nat || (n =? 45)%nat || (n =? 46)%nat.

(** [s.replace(/[^a-z0-9_\-\.]/gi, '_')]: every character outside the
    class is replaced. *)
Fixpoint replaceDisallowed (s : string) : string :=
  match s with
  | EmptyString => EmptyString
  | String c s' =>
      String (if isFilenameChar c then c else "_"%char) (replaceDisallowed s')
  end.

Definition sanitizeFilename (filename : string) : string :=
  toLowerCase (replaceDisallowed filename).

(** A string, character by character. *)
Fixpoint mapChars (f : ascii -> ascii) (s : string) : string :=
  match s with
  | EmptyString => EmptyString
  | String c s' => String (f c) (mapChars f s')
  end.

(** One character through [sanitizeFilename]. *)
Definition sanitizeChar (c : ascii) : ascii :=
  lowerChar (if isFilenameChar c then c else "_"%char).

(** The characters of a sanitized file name: [a-z], [0-9], [_], [-], [.]. *)
Definition isSafeChar (c : ascii) : bool :=
  let n := nat_of_ascii c in
  ((97 <=? n)%nat && (n <=? 122)%nat)
  || ((48 <=? n)%nat && (n <=? 57)%nat)
  || (n =? 95)%nat || (n =? 45)%nat || (n =? 46)%nat.

End UtilsMore.

(** ** Further checks over bytes and characters *)

Module ChecksMore.
Import Js JsMore Utils UtilsMore.

(** Two hexadecimal digits, the first of which is [c1], are printed back
    in upper case by [toHex] after [parseInt]. *)
Definition pairsPrintBack (c1 : ascii) : bool :=
  if isHexDigit c1
  then forallb
         (fun c2 =>
            implb (isHexDigit c2)
              (String.eqb (toUpperCase (toHex (parseInt16 (String c1 (String c2 "")))))
                          (String (upperChar c1) (String (upperChar c2) ""))))
         Finite.allAscii
  else true.

(** A byte is printed by [toHex] as two upper-case hexadecimal digits. *)
Definition bytePrintsHex (z : Z) : bool :=
  match toUpperCase (toHex (Int z)) with
  | String c1 (String c2 EmptyString) =>
      isHexDigit c1 && isHexDigit c2
      && Ascii.eqb (upperChar c1) c1 && Ascii.eqb (upperChar c2) c2
  | _ => false
  end.

(** A doubled hexadecimal digit reads as 17 times its value. *)
Definition doubledDigitReads (c : ascii) : bool :=
  if isHexDigit c
  then match hexDigitValue c, parseInt16 (String c (String c "")) with
       | Some v, Int w => (w =? 17 * v) && (0 <=? v) && (v <=? 15)
       | _, _ => false
       end
  else match hexDigitValue c with
       | Some _ => false
       | None => true
       end.

(** The grey level [v] is named by its brightness. *)
Definition greyNamed (v : Z) : bool :=
  String.eqb (getColorName (rgbToHex (Int v) (Int v) (Int v)))
    (if 200 <? v then "White" else if v <? 55 then "Black" else "Gray").

End ChecksMore.

(** ** Further vocabulary: clusters and pixels *)

Module SpecMore.
Import Js Utils ColorExtractor Spec.

Definition representativeRgb (e : string * Cluster.t) : RGB := Cluster.rgb (snd e).

(** No representative is similar to another one. *)
Definition Apart (m : ColorMap) : Prop :=
  ForallOrdPairs (fun a b => areColorsSimilar a b 30 = false) (map representativeRgb m).

Definition apartAndDistinct (this : ColorExtractor.t) : Prop :=
  Apart (colorMap this) /\ NoDup (map fst (colorMap this)).

(** The colour [c] is similar to the representative of a cluster of [m]. *)
Definition Covered (c : RGB) (m : ColorMap) : Prop :=
  exists e, In e m /\ areColorsSimilar c (Cluster.rgb (snd e)) 30 = true.

(** A pixel of a [Uint8ClampedArray]: four bytes. *)
Definition bytePixel (p : pixel) : Prop :=
  0 <= red p <= 255 /\ 0 <= green p <= 255 /\ 0 <= blue p <= 255 /\ 0 <= alpha p <= 255.

(** A well-formed entry of a palette: the hex code is the one of the
    colour, which is a colour of the data model observed at least once. *)
Definition consistentEntry (c : Color.t) : Prop :=
  Color.hex c = rgbToHex (r (Color.rgb c)) (g (Color.rgb c)) (b (Color.rgb c))
  /\ RGBColor (Color.rgb c)
  /\ isValidHex (Color.hex c) = true
  /\ 1 <= Color.count c.

Definition byPercentageDescending (a b : Color.t) : Prop :=
  percentageValue b <= percentageValue a.

(** A palette whose percentages are in descending order, each between 0
    and 100.00. *)
Definition rankedPercentages (palette : list Color.t) : Prop :=
  StronglySorted byPercentageDescending palette
  /\ Forall (fun c => 0 <= percentageValue c <= 10000) palette.

(** A pixel that [analyzeImage] passes over. *)
Definition skipped (extremeLuminance : Z -> Z -> Z -> bool) (p : pixel) : Prop :=
  alpha p < 128 \/ extremeLuminance (red p) (green p) (blue p) = true.

End SpecMore.

(** ** app.js: the handlers *)

Module AppMore.
Import Js JsMore Utils UtilsMore App.

(** What [handleFile] does with a file of a given MIME type and name: the
    extractor it calls, or the error it throws. *)
Inductive choice : Type :=
| ExtractFromSVG
| ExtractFromImage
| ExtractFromPDF
| ExtractFromDocument
| UnsupportedFileType.

Definition chooseExtractor (fileType name : string) : choice :=
  let fileName := toLowerCase name in
  if startsWith "image/" fileType then
    if endsWith ".svg" fileName then ExtractFromSVG else ExtractFromImage
  else if String.eqb fileType "application/pdf" || endsWith ".pdf" fileName then
    ExtractFromPDF
  else if endsWith ".doc" fileName
          || endsWith ".docx" fileName
          || endsWith ".ppt" fileName
          || endsWith ".pptx" fileName
          || endsWith ".xls" fileName
          || endsWith ".xlsx" fileName then
    ExtractFromDocument
  else UnsupportedFileType.

(** The click handler of the "add manual colour" button, from the value of
    the text input on. *)
Definition manualHex (value : string) : string :=
  let hex := trim value in
  if startsWithChar "#" hex then hex else "#" ++ hex.

Definition addManualColorClick (st : state) (value : string) : state :=
  let hex := manualHex value in
  if isValidHex hex
  then showToast (addSingleColor st (toUpperCase hex)) ("Color added: " ++ toUpperCase hex)
  else showToast st "Invalid color format. Use #RRGGBB or #RGB".

(** An entry whose hex code [isValidHex] accepts and whose colour is a
    colour of the data model. *)
Definition validEntry (c : Color.t) : Prop :=
  isValidHex (Color.hex c) = true /\ Spec.RGBColor (Color.rgb c).

End AppMore.

(** ** colorExtractor.js: [parseColor] *)

Module CssColor.
Import Js JsMore Utils.

Definition isDigit (c : ascii) : bool :=
  let n := nat_of_ascii c in (48 <=? n)%nat && (n <=? 57)%nat.

(** The longest prefix of decimal digits, and what follows it. *)
Fixpoint digits (s : string) : string * string :=
  match s with
  | EmptyString => (EmptyString, EmptyString)
  | String c s' =>
      if isDigit c
      then let '(d, rest) := digits s' in (String c d, rest)
      else (EmptyString, s)
  end.

(** [(\d+)]: at least one digit, as many as there are. *)
Definition capture (s : string) : option (string * string) :=
  match digits s with
  | (EmptyString, _) => None
  | (d, rest) => Some (d, rest)
  end.

(** One given character. *)
Definition expect (c : ascii) (s : string) : option string :=
  match s with
  | String d s' => if Ascii.eqb d c then Some s' else None
  | EmptyString => None
  end.

(** [c?] before a character other than [c]. *)
Definition optional (c : ascii) (s : string) : string :=
  match s with
  | String d s' => if Ascii.eqb d c then s' else s
  | EmptyString => s
  end.

Definition andThen {A B : Type} (o : option A) (f : A -> option B) : option B :=
  match o with
  | Some a => f a
  | None => None
  end.

(** [/rgba?\((\d+),\s*(\d+),\s*(\d+)/] at the head of [s]: the three
    captured groups.  Every repetition is followed by a character that it
    cannot match, so that the longest repetition is the only one to try. *)
Definition matchRgbAt (s : string) : option (string * string * string) :=
  andThen (expect "r" s) (fun s =>
  andThen (expect "g" s) (fun s =>
  andThen (expect "b" s) (fun s =>
  andThen (expect "(" (optional "a" s)) (fun s =>
  andThen (capture s) (fun '(d1, s) =>
  andThen (expect "," s) (fun s =>
  andThen (capture (trimStart s)) (fun '(d2, s) =>
  andThen (expect "," s) (fun s =>
  andThen (capture (trimStart s)) (fun '(d3, _) =>
  Some (d1, d2, d3)))))))))).

(** [colorString.match(...)]: the leftmost match. *)
Fixpoint rgbMatch (s : string) : option (string * string * string) :=
  match matchRgbAt s with
  | Some groups => Some groups
  | None =>
      match s with
      | EmptyString => None
      | String _ s' => rgbMatch s'
      end
  end.

(** [parseInt] of a captured group: a number in base 10.  The value is
    exact, as the double that [parseInt] returns is up to 2^53; longer
    numbers, which the double rounds, are outside the model. *)
Definition parseIntDigits (d : string) : number :=
  match readDecimal d with
  | Some v => Int v
  | None => NaN
  end.

Section ParseColor.
(** The computed [color] of a temporary element whose [style.color] was
    set to the string: the only use of the document. *)
Variable computedColor : string -> string.

(** [parseColor]; the call on the computed colour is the only recursive
    one, and [None] stands for a recursion deeper than [fuel]. *)
Fixpoint parseColor (fuel : nat) (colorString : string) : option RGB :=
  match fuel with
  | O => None
  | S fuel' =>
      match rgbMatch colorString with
      | Some (d1, d2, d3) =>
          Some (mkRGB (parseIntDigits d1) (parseIntDigits d2) (parseIntDigits d3))
      | None =>
          if startsWithChar "#" colorString
          then Some (hexToRgb colorString)
          else parseColor fuel' (computedColor colorString)
      end
  end.
End ParseColor.

(** The printed forms [rgb(r, g, b)] and [rgba(r, g, b, a)]. *)
Definition rgbString (x y z : number) : string :=
  "rgb(" ++ numberToString x ++ ", " ++ numberToString y ++ ", " ++ numberToString z ++ ")".

Definition rgbaString (x y z : number) (a : string) : string :=
  "rgba(" ++ numberToString x ++ ", " ++ numberToString y ++ ", " ++ numberToString z
          ++ ", " ++ a ++ ")".

(** What follows a number in the printed forms: not a digit. *)
Definition notDigitHead (s : string) : Prop :=
  match s with
  | EmptyString => True
  | String c _ => isDigit c = false
  end.

(** No character of the string is [c]. *)
Fixpoint without (c : ascii) (s : string) : Prop :=
  match s with
  | EmptyString => True
  | String d s' => Ascii.eqb d c = false /\ without c s'
  end.

End CssColor.

(** ** app.js: the export *)

Module Exporting.
Import Js JsMore Utils UtilsMore App CssColor.

(** An element of [colors] in the exported document. *)
Record color : Type :=
  mkColor { hex : string; rgb : RGB; rgbString : string; usage : string; name : string }.

(** [color.percentage ? `${color.percentage}%` : 'N/A']: the number 0 and
    the empty string are falsy. *)
Definition usageOf (p : percentage_t) : string :=
  match p with
  | PctNumber n => if n =? 0 then "N/A" else numberToString (Int n) ++ "%"
  | PctString s => if String.eqb s "" then "N/A" else s ++ "%"
  end.

Definition exportColor (c : Color.t) : color :=
  mkColor (Color.hex c) (Color.rgb c)
    (CssColor.rgbString (r (Color.rgb c)) (g (Color.rgb c)) (b (Color.rgb c)))
    (usageOf (Color.percentage c))
    (getColorName (Color.hex c)).

Record data : Type :=
  mkData { exportDate : string; totalColors : nat; colors : list color }.

(** [exportColors]: the document that is written, if any; [now] is
    [new Date().toISOString()]. *)
Definition exportColors (now : string) (st : state) : state * option data :=
  match currentColors st with
  | [] => (showToast st "No colors to export", None)
  | _ =>
      (showToast st "Colors exported successfully!",
       Some (mkData now (List.length (currentColors st))
                    (map exportColor (currentColors st))))
  end.

End Exporting.

(* ================================================================= *)
(** * Part II: the proofs *)
(* ================================================================= *)

(** ** The matcher decides the language *)

Module RegexFacts.
Import Regex.

Lemma nullable_lang (r : regex) : nullable r = true <-> lang r "".
Proof.
  induction r as [| | p | a IHa b IHb | a IHa b IHb]; simpl.
  - split; [discriminate | tauto].
  - split; reflexivity.
  - split; [discriminate | intros (c & H & _); discriminate].
  - rewrite andb_true_iff, IHa, IHb. split.
    + intros [Ha Hb]. exists "", "". auto.
    + intros (s1 & s2 & H & Ha & Hb).
      destruct s1; [| discriminate]. destruct s2; [| discriminate]. auto.
  - rewrite orb_true_iff, IHa, IHb. reflexivity.
Qed.

Lemma deriv_lang (c : ascii) (r : regex) :
  forall s, lang (deriv c r) s <-> lang r (String c s).
Proof.
  induction r as [| | p | a IHa b IHb | a IHa b IHb]; simpl; intros s.
  - reflexivity.
  - split; [tauto | discriminate].
  - destruct (p c) eqn:Hp; simpl; split.
    + intros ->. exists c. auto.
    + intros (d & H & _). congruence.
    + tauto.
    + intros (d & H & Hd). congruence.
  - assert (Hstep : (exists s1 s2, s = s1 ++ s2 /\ lang (deriv c a) s1 /\ lang b s2)
                    <-> (exists s1 s2, String c s = String c s1 ++ s2
                                       /\ lang a (String c s1) /\ lang b s2)).
    { split; intros (s1 & s2 & H & Ha & Hb); exists s1, s2.
      - subst s. rewrite <- IHa. auto.
      - rewrite IHa. simpl in H. split; [congruence | auto]. }
    destruct (nullable a) eqn:Hn; simpl.
    + rewrite Hstep, IHb. split.
      * intros [(s1 & s2 & H & Ha & Hb) | Hb].
        -- exists (String c s1), s2. auto.
        -- exists "", (String c s). rewrite <- nullable_lang. auto.
      * intros (s1 & s2 & H & Ha & Hb). destruct s1 as [| d s1].
        -- right. simpl in H. subst s2. exact Hb.
        -- left. simpl in H. injection H as -> H. exists s1, s2.
           simpl. rewrite <- H. auto.
    + rewrite Hstep. split.
      * intros (s1 & s2 & H & Ha & Hb). exists (String c s1), s2. auto.
      * intros (s1 & s2 & H & Ha & Hb). destruct s1 as [| d s1].
        -- apply nullable_lang in Ha. congruence.
        -- simpl in H. injection H as -> H. exists s1, s2.
           simpl. rewrite <- H. auto.
  - rewrite IHa, IHb. reflexivity.
Qed.

Lemma test_lang (s : string) : forall r, test r s = true <-> lang r s.
Proof.
  induction s as [| c s IH]; intros r; simpl.
  - apply nullable_lang.
  - rewrite IH. apply deriv_lang.
Qed.

(** [p{n}] matches the strings of [n] characters of the class [p]. *)
Lemma lang_Times_Class (p : ascii -> bool) (n : nat) :
  forall s, lang (Times n (Class p)) s <-> String.length s = n /\ allChars p s.
Proof.
  induction n as [| n IH]; intros s; simpl.
  - split.
    + intros ->. simpl. auto.
    + intros [H _]. destruct s; [reflexivity | discriminate].
  - split.
    + intros (s1 & s2 & -> & (c & -> & Hc) & H2). apply IH in H2 as [Hl Ha].
      simpl. auto.
    + intros [Hl Ha]. destruct s as [| c s]; [discriminate |].
      simpl in Hl, Ha. exists (String c ""), s. split; [reflexivity |].
      split; [exists c; tauto |]. apply IH. split; [congruence | tauto].
Qed.

End RegexFacts.

(** ** Finite checks over bytes and characters *)

Module FiniteFacts.
Import Finite.

Lemma In_allAscii (c : ascii) : In c allAscii.
Proof.
  unfold allAscii. rewrite <- (ascii_nat_embedding c).
  apply in_map, in_seq. pose proof (nat_ascii_bounded c). lia.
Qed.

Lemma forall_ascii (P : ascii -> bool) :
  forallb P allAscii = true -> forall c, P c = true.
Proof.
  intros H c. rewrite forallb_forall in H. apply H, In_allAscii.
Qed.

Lemma forall_byte (P : Z -> bool) :
  forallb P allBytes = true -> forall z, 0 <= z <= 255 -> P z = true.
Proof.
  intros H z Hz. rewrite forallb_forall in H. apply H.
  unfold allBytes. rewrite <- (Z2Nat.id z) by lia.
  apply in_map, in_seq. lia.
Qed.

End FiniteFacts.

(** ** utils.js: conversions and validation *)

Module UtilsFacts.
Import Js Utils Checks Spec.

Lemma toUpperCase_app (s1 s2 : string) :
  toUpperCase (s1 ++ s2) = toUpperCase s1 ++ toUpperCase s2.
Proof.
  induction s1 as [| c s1 IH]; simpl; [reflexivity | now rewrite IH].
Qed.

Lemma toHex_byte (z : Z) :
  0 <= z <= 255 ->
  exists c1 c2,
    toUpperCase (toHex (Int z)) = String c1 (String c2 "")
    /\ parseInt16 (String c1 (String c2 "")) = Int z.
Proof.
  intros Hz.
  assert (H : byteRoundTrips z = true).
  { revert z Hz. apply FiniteFacts.forall_byte. vm_compute. reflexivity. }
  unfold byteRoundTrips in H. apply andb_true_iff in H as [Hlen Hval].
  destruct (toUpperCase (toHex (Int z))) as [| c1 [| c2 [| c3 s]]]; try discriminate.
  exists c1, c2. split; [reflexivity |].
  destruct (parseInt16 (String c1 (String c2 ""))) as [v |]; [| discriminate].
  apply Z.eqb_eq in Hval. now subst.
Qed.

Lemma channels_read_back (x y z : Z) :
  0 <= x <= 255 -> 0 <= y <= 255 -> 0 <= z <= 255 ->
  hexToRgb (rgbToHex (Int x) (Int y) (Int z)) = mkRGB (Int x) (Int y) (Int z).
Proof.
  intros Hx Hy Hz.
  destruct (toHex_byte x Hx) as (a1 & a2 & Ea & Pa).
  destruct (toHex_byte y Hy) as (b1 & b2 & Eb & Pb).
  destruct (toHex_byte z Hz) as (c1 & c2 & Ec & Pc).
  unfold rgbToHex. rewrite !toUpperCase_app, Ea, Eb, Ec.
  unfold hexToRgb, normalizeHex. simpl removeFirst. simpl String.length.
  cbv zeta. simpl Nat.eqb. cbv iota.
  simpl substring. now rewrite Pa, Pb, Pc.
Qed.

(** C2. For all integers [x], [y], [z] of [[0,255]],
    [hexToRgb (rgbToHex x y z)] is exactly [{r: x, g: y, b: z}]: converting
    to hex and parsing back is the identity on in-range channels. *)
Theorem hexToRgb_rgbToHex (x y z : Z) :
  0 <= x <= 255 -> 0 <= y <= 255 -> 0 <= z <= 255 ->
  hexToRgb (rgbToHex (Int x) (Int y) (Int z)) = mkRGB (Int x) (Int y) (Int z).
Proof. exact (channels_read_back x y z). Qed.

Lemma hexToRgb_rgbToHex_witness :
  hexToRgb (rgbToHex (Int 18) (Int 171) (Int 255)) = mkRGB (Int 18) (Int 171) (Int 255).
Proof. apply hexToRgb_rgbToHex; lia. Defined.

(** The conversion is injective on the colours of the data model. *)
Lemma rgbToHex_inj (c1 c2 : RGB) :
  RGBColor c1 -> RGBColor c2 ->
  rgbToHex (r c1) (g c1) (b c1) = rgbToHex (r c2) (g c2) (b c2) -> c1 = c2.
Proof.
  destruct c1 as [r1 g1 b1], c2 as [r2 g2 b2].
  unfold RGBColor, channel. simpl.
  intros ((x1 & -> & ?) & (y1 & -> & ?) & (z1 & -> & ?)).
  intros ((x2 & -> & ?) & (y2 & -> & ?) & (z2 & -> & ?)).
  intros E. apply (f_equal hexToRgb) in E.
  rewrite !channels_read_back in E by assumption. exact E.
Qed.

(** *** [isValidHex] *)

Lemma allChars_hexDigits (s : string) :
  Regex.allChars isHexDigit s <-> hexDigits s.
Proof.
  induction s as [| c s IH]; simpl; [reflexivity | now rewrite IH].
Qed.

Lemma isValidHex_iff (s : string) : isValidHex s = true <-> ValidHex s.
Proof.
  unfold isValidHex. rewrite RegexFacts.test_lang.
  unfold hexPattern, Regex.Opt. cbn [Regex.lang].
  unfold ValidHex. split.
  - intros (s1 & s2 & -> & Hopt & Hbody).
    rewrite !RegexFacts.lang_Times_Class, !allChars_hexDigits in Hbody.
    exists s2. split.
    + destruct Hopt as [-> | (c & -> & Hc)]; [left; reflexivity |].
      right. apply Ascii.eqb_eq in Hc. subst c. reflexivity.
    + tauto.
  - intros (body & Hs & Hlen & Hd).
    assert (Hbody : Regex.lang (Regex.Times 6 (Regex.Class isHexDigit)) body
                    \/ Regex.lang (Regex.Times 3 (Regex.Class isHexDigit)) body).
    { rewrite !RegexFacts.lang_Times_Class, !allChars_hexDigits. tauto. }
    destruct Hs as [-> | ->].
    + exists "", body. auto.
    + exists "#", body. repeat split; [right; exists "#"%char; auto | exact Hbody].
Qed.

(** C9. [isValidHex s] is true exactly when [s], with an optional single
    leading [#], consists of exactly 3 or exactly 6 hexadecimal digits; it
    accepts ["#FFF"], ["#ffffff"] and ["123ABC"] and rejects ["#12G"],
    ["1234567"] and the empty string. *)
Theorem isValidHex_spec :
  (forall s, isValidHex s = true <-> ValidHex s)
  /\ isValidHex "#FFF" = true
  /\ isValidHex "#ffffff" = true
  /\ isValidHex "123ABC" = true
  /\ isValidHex "#12G" = false
  /\ isValidHex "1234567" = false
  /\ isValidHex "" = false.
Proof.
  split; [exact isValidHex_iff |]. repeat split; reflexivity.
Qed.

(** *** [hexToRgb] on arbitrary strings *)

Lemma hexDigit_not_hash :
  forall c, implb (isHexDigit c) (negb (Ascii.eqb c "#")) = true.
Proof. apply FiniteFacts.forall_ascii. vm_compute. reflexivity. Qed.

Lemma removeFirst_hexDigits (s : string) :
  hexDigits s -> removeFirst "#" s = s.
Proof.
  induction s as [| c s IH]; simpl; [reflexivity |].
  intros [Hc Hs]. pose proof (hexDigit_not_hash c) as Hn.
  rewrite Hc in Hn. simpl in Hn. apply negb_true_iff in Hn.
  rewrite Hn, IH; auto.
Qed.

Lemma two_digits_channel (c1 c2 : ascii) :
  isHexDigit c1 = true -> isHexDigit c2 = true ->
  channel (parseInt16 (String c1 (String c2 ""))).
Proof.
  intros H1 H2.
  assert (H : pairsReadAsBytes c1 = true).
  { revert c1 H1. intros c1 _. revert c1.
    apply FiniteFacts.forall_ascii. vm_compute. reflexivity. }
  unfold pairsReadAsBytes in H. rewrite H1 in H.
  rewrite forallb_forall in H. specialize (H c2 (FiniteFacts.In_allAscii c2)).
  rewrite H2 in H. simpl in H. unfold readsAsByte in H.
  destruct (parseInt16 (String c1 (String c2 ""))) as [v |]; [| discriminate].
  exists v. split; [reflexivity | lia].
Qed.

Lemma normalizeHex_valid (s : string) :
  ValidHex s ->
  exists c1 c2 c3 c4 c5 c6,
    normalizeHex s = String c1 (String c2 (String c3 (String c4 (String c5 (String c6 "")))))
    /\ isHexDigit c1 = true /\ isHexDigit c2 = true /\ isHexDigit c3 = true
    /\ isHexDigit c4 = true /\ isHexDigit c5 = true /\ isHexDigit c6 = true.
Proof.
  intros (body & Hs & Hlen & Hd).
  assert (Hn : normalizeHex s
               = if (String.length body =? 3)%nat then doubleChars body else body).
  { unfold normalizeHex. destruct Hs as [-> | ->].
    - now rewrite removeFirst_hexDigits.
    - reflexivity. }
  rewrite Hn. clear Hn Hs s.
  destruct Hlen as [Hlen | Hlen].
  - destruct body as [| c1 [| c2 [| c3 [| c4 body]]]]; try discriminate.
    simpl in Hd. exists c1, c1, c2, c2, c3, c3. simpl. tauto.
  - destruct body as [| c1 [| c2 [| c3 [| c4 [| c5 [| c6 [| c7 body]]]]]]];
      try discriminate.
    simpl in Hd. exists c1, c2, c3, c4, c5, c6. simpl. tauto.
Qed.

Lemma hexToRgb_valid (s : string) : isValidHex s = true -> RGBColor (hexToRgb s).
Proof.
  intros H. apply isValidHex_iff, normalizeHex_valid in H.
  destruct H as (c1 & c2 & c3 & c4 & c5 & c6 & E & H1 & H2 & H3 & H4 & H5 & H6).
  unfold hexToRgb. rewrite E. simpl substring.
  repeat split; simpl; apply two_digits_channel; assumption.
Qed.

(** C4, as stated, fails: ["#12"] leaves the remainder ["12"], which is not
    six hexadecimal digits, and [hexToRgb] returns the partial parse
    [{r: 18, g: NaN, b: NaN}] instead of signalling [InvalidFormat]. *)
Lemma hexToRgb_invalid_returns :
  ~ SixHexDigits (normalizeHex "#12")
  /\ hexToRgb_completion "#12" = Return (mkRGB (Int 18) NaN NaN)
  /\ hexToRgb_completion "#12" <> Throw "InvalidFormat".
Proof.
  split; [| split].
  - intros [Hlen _]. vm_compute in Hlen. discriminate.
  - reflexivity.
  - discriminate.
Qed.

(** C4, amended. [hexToRgb] signals no error: for every input string it
    returns the object whose channels are [parseInt] of the three
    two-character slices of the normalised string (a channel that cannot be
    read is [NaN], the others are kept); for every string accepted by
    [isValidHex] the three channels are integers of [[0,255]]. *)
Theorem hexToRgb_never_fails (s : string) :
  hexToRgb_completion s
  = Return (mkRGB (parseInt16 (substring 0 2 (normalizeHex s)))
                  (parseInt16 (substring 2 2 (normalizeHex s)))
                  (parseInt16 (substring 4 2 (normalizeHex s))))
  /\ (isValidHex s = true -> RGBColor (hexToRgb s)).
Proof.
  split; [reflexivity | apply hexToRgb_valid].
Qed.

Lemma hexToRgb_never_fails_witness :
  isValidHex "#f0a" = true /\ RGBColor (hexToRgb "#f0a").
Proof.
  split; [reflexivity |].
  apply (proj2 (hexToRgb_never_fails "#f0a")). reflexivity.
Defined.

(** *** [areColorsSimilar] *)

Lemma squaredDistance_nonneg (x1 y1 z1 x2 y2 z2 : Z) :
  0 <= squaredDistance x1 y1 z1 x2 y2 z2.
Proof.
  unfold squaredDistance.
  pose proof (Z.square_nonneg (x1 - x2)).
  pose proof (Z.square_nonneg (y1 - y2)).
  pose proof (Z.square_nonneg (z1 - z2)).
  lia.
Qed.

Lemma areColorsSimilar_rgb (x1 y1 z1 x2 y2 z2 t : Z) :
  areColorsSimilar (rgb x1 y1 z1) (rgb x2 y2 z2) t
  = (Z.sqrt (squaredDistance x1 y1 z1 x2 y2 z2) <? t).
Proof.
  unfold areColorsSimilar, rgb. simpl.
  fold (squaredDistance x1 y1 z1 x2 y2 z2).
  pose proof (squaredDistance_nonneg x1 y1 z1 x2 y2 z2) as H.
  apply Z.leb_le in H. now rewrite H.
Qed.

(** The integer part of a square root is below an integer bound exactly
    when the square root is. *)
Lemma Zsqrt_lt_iff (s t : Z) :
  0 <= s -> Z.sqrt s < t <-> (sqrt (IZR s) < IZR t)%R.
Proof.
  intros Hs. pose proof (Z.sqrt_spec s Hs) as [Hlo Hhi].
  pose proof (Z.sqrt_nonneg s) as Ha.
  set (a := Z.sqrt s) in *.
  split; intros H.
  - apply Rlt_le_trans with (IZR (a + 1)).
    + rewrite <- (sqrt_square (IZR (a + 1))) by (apply IZR_le; lia).
      apply sqrt_lt_1_alt. split; [apply IZR_le; lia |].
      rewrite <- mult_IZR. apply IZR_lt. exact Hhi.
    + apply IZR_le. lia.
  - apply lt_IZR. apply Rle_lt_trans with (sqrt (IZR s)); [| exact H].
    rewrite <- (sqrt_square (IZR a)) at 1 by (apply IZR_le; lia).
    apply sqrt_le_1_alt. rewrite <- mult_IZR. apply IZR_le. exact Hlo.
Qed.

Lemma areColorsSimilar_distance (x1 y1 z1 x2 y2 z2 t : Z) :
  areColorsSimilar (rgb x1 y1 z1) (rgb x2 y2 z2) t = true
  <-> (colorDistance x1 y1 z1 x2 y2 z2 < IZR t)%R.
Proof.
  rewrite areColorsSimilar_rgb, Z.ltb_lt.
  apply Zsqrt_lt_iff, squaredDistance_nonneg.
Qed.

(** C8. [areColorsSimilar a b t] is true exactly when the Euclidean RGB
    distance between [a] and [b] is strictly below [t]; black is similar to
    itself at threshold 30, black and white are not, and a pair whose
    distance equals the threshold is not similar. *)
Theorem areColorsSimilar_spec :
  (forall x1 y1 z1 x2 y2 z2 t,
      areColorsSimilar (rgb x1 y1 z1) (rgb x2 y2 z2) t = true
      <-> (colorDistance x1 y1 z1 x2 y2 z2 < IZR t)%R)
  /\ areColorsSimilar (rgb 0 0 0) (rgb 0 0 0) 30 = true
  /\ areColorsSimilar (rgb 0 0 0) (rgb 255 255 255) 30 = false
  /\ (forall x1 y1 z1 x2 y2 z2 t,
         colorDistance x1 y1 z1 x2 y2 z2 = IZR t ->
         areColorsSimilar (rgb x1 y1 z1) (rgb x2 y2 z2) t = false).
Proof.
  split; [exact areColorsSimilar_distance |].
  split; [reflexivity |]. split; [reflexivity |].
  intros x1 y1 z1 x2 y2 z2 t H.
  apply not_true_is_false. rewrite areColorsSimilar_distance, H.
  apply Rlt_irrefl.
Qed.

Lemma areColorsSimilar_spec_witness :
  colorDistance 0 0 0 30 0 0 = IZR 30
  /\ areColorsSimilar (rgb 0 0 0) (rgb 30 0 0) 30 = false.
Proof.
  assert (H : colorDistance 0 0 0 30 0 0 = IZR 30).
  { unfold colorDistance. change (squaredDistance 0 0 0 30 0 0) with 900.
    replace (IZR 900) with (IZR 30 * IZR 30)%R by (rewrite <- mult_IZR; reflexivity).
    apply sqrt_square. apply IZR_le. lia. }
  split; [exact H |].
  apply (proj2 (proj2 (proj2 areColorsSimilar_spec)) 0 0 0 30 0 0 30 H).
Defined.

End UtilsFacts.

(** ** colorExtractor.js: the clusterer *)

Module ClustererFacts.
Import Js Utils ColorExtractor Spec.

(** *** The scan *)

Lemma scan_None (c : RGB) (t : Z) (m : ColorMap) :
  scan c t m = None <-> Forall (dissimilar c t) m.
Proof.
  induction m as [| [k d] m IH]; simpl.
  - split; [constructor | reflexivity].
  - destruct (areColorsSimilar c (Cluster.rgb d) t) eqn:E.
    + split; [discriminate |]. intros H. inversion H as [| ? ? Hd _]; subst.
      unfold dissimilar in Hd. simpl in Hd. congruence.
    + destruct (scan c t m) as [m' |] eqn:Es; simpl.
      * split; [discriminate |]. intros H. inversion H; subst.
        apply IH in H3. discriminate.
      * split; [| reflexivity]. intros _. constructor; [exact E | now apply IH].
Qed.

Lemma scan_first_match (c : RGB) (t : Z) (l1 l2 : ColorMap) (k : string) (d : Cluster.t) :
  Forall (dissimilar c t) l1 ->
  areColorsSimilar c (Cluster.rgb d) t = true ->
  scan c t (l1 ++ (k, d) :: l2)%list = Some (l1 ++ (k, incremented d) :: l2)%list.
Proof.
  intros H Hd. induction H as [| [k' d'] l1 Hx _ IH]; simpl.
  - now rewrite Hd.
  - unfold dissimilar in Hx. simpl in Hx. now rewrite Hx, IH.
Qed.

(** A successful scan changes one count and nothing else. *)
Lemma scan_Some (c : RGB) (t : Z) (m m' : ColorMap) :
  scan c t m = Some m' ->
  exists l1 k d l2,
    m = (l1 ++ (k, d) :: l2)%list /\ m' = (l1 ++ (k, incremented d) :: l2)%list
    /\ Forall (dissimilar c t) l1 /\ areColorsSimilar c (Cluster.rgb d) t = true.
Proof.
  revert m'. induction m as [| [k d] m IH]; simpl; intros m' H; [discriminate |].
  destruct (areColorsSimilar c (Cluster.rgb d) t) eqn:E.
  - injection H as <-. exists [], k, d, m. repeat split; auto.
  - destruct (scan c t m) as [m1 |]; [| discriminate]. injection H as <-.
    destruct (IH m1 eq_refl) as (l1 & k1 & d1 & l2 & -> & -> & Hl & Hs).
    exists ((k, d) :: l1), k1, d1, l2. repeat split; auto.
Qed.

(** *** [Map.set] on a new key *)

Lemma Map_set_fresh (m : ColorMap) (k : string) (v : Cluster.t) :
  Forall (fun e => fst e <> k) m -> Map_set m k v = (m ++ [(k, v)])%list.
Proof.
  induction 1 as [| [k' v'] m Hk _ IH]; simpl; [reflexivity |].
  simpl in Hk. apply String.eqb_neq in Hk. now rewrite Hk, IH.
Qed.

(** *** The invariant of the colour map *)

Lemma similar_refl (c : RGB) : RGBColor c -> areColorsSimilar c c 30 = true.
Proof.
  destruct c as [x y z]. unfold RGBColor, channel. simpl.
  intros ((x' & -> & _) & (y' & -> & _) & (z' & -> & _)).
  unfold areColorsSimilar. simpl. rewrite !Z.sub_diag. reflexivity.
Qed.

(** When no cluster is similar to a colour, its hex code is a new key. *)
Lemma dissimilar_fresh (c : RGB) (m : ColorMap) :
  RGBColor c -> Forall keyed m -> Forall (dissimilar c 30) m ->
  Forall (fun e => fst e <> rgbToHex (r c) (g c) (b c)) m.
Proof.
  intros Hc Hk Hd. rewrite Forall_forall in *. intros e He Heq.
  destruct (Hk e He) as [Hrgb Hkey]. rewrite Hkey in Heq.
  apply UtilsFacts.rgbToHex_inj in Heq; [| assumption | assumption].
  specialize (Hd e He). unfold dissimilar in Hd. rewrite Heq in Hd.
  rewrite similar_refl in Hd by assumption. discriminate.
Qed.

Lemma wellKeyed_clear (this : t) : similarityThreshold this = 30 -> wellKeyed (clear this).
Proof. intros H. split; [exact H | constructor]. Qed.

Lemma addColor_wellKeyed (this : t) (c : RGB) :
  wellKeyed this -> RGBColor c -> wellKeyed (addColor this (r c) (g c) (b c)).
Proof.
  intros [Ht Hk] Hc. unfold addColor.
  replace (mkRGB (r c) (g c) (b c)) with c by now destruct c.
  destruct (scan c (similarityThreshold this) (colorMap this)) as [m' |] eqn:E.
  - split; [exact Ht |]. simpl.
    apply scan_Some in E as (l1 & k & d & l2 & Hm & -> & _ & _).
    rewrite Hm in Hk. apply Forall_app in Hk as [H1 H2].
    inversion H2 as [| ? ? Hd H3]; subst.
    apply Forall_app. split; [exact H1 |]. constructor; [exact Hd | exact H3].
  - split; [exact Ht |]. simpl. rewrite Ht in E. apply scan_None in E.
    rewrite Map_set_fresh by now apply dissimilar_fresh.
    apply Forall_app. split; [exact Hk |]. constructor; [| constructor].
    split; [exact Hc | reflexivity].
Qed.

Lemma addColors_wellKeyed (observations : list RGB) :
  forall this, wellKeyed this -> Forall RGBColor observations ->
               wellKeyed (addColors this observations).
Proof.
  induction observations as [| c l IH]; intros this Hw Hf; simpl; [exact Hw |].
  inversion Hf; subst. apply IH; [| assumption].
  now apply addColor_wellKeyed.
Qed.

(** *** One call of [addColor] *)

Lemma addColor_found (this : t) (c : RGB) (l1 l2 : ColorMap) (k : string) (d : Cluster.t) :
  colorMap this = (l1 ++ (k, d) :: l2)%list ->
  Forall (dissimilar c (similarityThreshold this)) l1 ->
  areColorsSimilar c (Cluster.rgb d) (similarityThreshold this) = true ->
  colorMap (addColor this (r c) (g c) (b c)) = (l1 ++ (k, incremented d) :: l2)%list.
Proof.
  intros Hm Hl Hd. unfold addColor.
  replace (mkRGB (r c) (g c) (b c)) with c by now destruct c.
  rewrite Hm, (scan_first_match _ _ _ _ _ _ Hl Hd). reflexivity.
Qed.

Lemma addColor_new (this : t) (c : RGB) :
  wellKeyed this -> RGBColor c ->
  Forall (dissimilar c 30) (colorMap this) ->
  colorMap (addColor this (r c) (g c) (b c))
  = (colorMap this ++ [(rgbToHex (r c) (g c) (b c), Cluster.mk c 1)])%list.
Proof.
  intros [Ht Hk] Hc Hd. unfold addColor.
  replace (mkRGB (r c) (g c) (b c)) with c by now destruct c.
  rewrite Ht. rewrite (proj2 (scan_None c 30 (colorMap this)) Hd). simpl.
  apply Map_set_fresh. now apply dissimilar_fresh.
Qed.






(** *** Conservation of the observations *)







End ClustererFacts.

(** ** colorExtractor.js: ranking and truncation of the palette *)

Module PaletteFacts.
Import Js Utils ColorExtractor Checks Spec.

(** *** The sort *)

Section SortFacts.
Context {A : Type} (key : A -> Z).

Lemma insert_perm (x : A) (l : list A) :
  Permutation (insert (fun a b => key b - key a) x l) (x :: l).
Proof.
  induction l as [| y l IH]; simpl; [reflexivity |].
  destruct (key y - key x <=? 0); [reflexivity |].
  rewrite IH. apply perm_swap.
Qed.

Lemma Array_sort_perm (l : list A) :
  Permutation (Array_sort (fun a b => key b - key a) l) l.
Proof.
  induction l as [| x l IH]; simpl; [reflexivity |].
  rewrite insert_perm. now constructor.
Qed.

Lemma insert_sorted (x : A) (l : list A) :
  StronglySorted (fun a b => key b <= key a) l ->
  StronglySorted (fun a b => key b <= key a) (insert (fun a b => key b - key a) x l).
Proof.
  induction 1 as [| y l Hs IH Hy]; simpl.
  - repeat constructor.
  - destruct (key y - key x <=? 0) eqn:E.
    + apply Z.leb_le in E.
      constructor; [now constructor |].
      constructor; [lia |].
      eapply Forall_impl; [| exact Hy]. simpl. intros; lia.
    + apply Z.leb_gt in E.
      constructor; [exact IH |].
      eapply Permutation_Forall; [symmetry; apply insert_perm |].
      constructor; [lia | exact Hy].
Qed.

Lemma Array_sort_sorted (l : list A) :
  StronglySorted (fun a b => key b <= key a) (Array_sort (fun a b => key b - key a) l).
Proof.
  induction l as [| x l IH]; simpl; [constructor | now apply insert_sorted].
Qed.

(** A sorted list, cut in two. *)
Lemma sorted_app (l1 l2 : list A) :
  StronglySorted (fun a b => key b <= key a) (l1 ++ l2)%list ->
  StronglySorted (fun a b => key b <= key a) l1
  /\ forall a b, In a l1 -> In b l2 -> key b <= key a.
Proof.
  induction l1 as [| x l1 IH]; simpl; intros H.
  - split; [constructor | contradiction].
  - apply StronglySorted_inv in H as [Hs Hx].
    destruct (IH Hs) as [H1 H2]. apply Forall_app in Hx as [Hx1 Hx2].
    split; [now constructor |].
    intros a b [<- | Ha] Hb; [| now apply H2].
    rewrite Forall_forall in Hx2. now apply Hx2.
Qed.
End SortFacts.

(** *** The ranked list of colours *)

Lemma withPercentages_map (colors : list Color.t) :
  withPercentages colors = map (setPercentage (totalCount colors)) colors.
Proof. reflexivity. Qed.

Lemma clusterOf_setPercentage (total : Z) (colors : list Color.t) :
  map clusterOf (map (setPercentage total) colors) = map clusterOf colors.
Proof. rewrite map_map. apply map_ext. reflexivity. Qed.

Lemma clusterOf_entries (m : ColorMap) :
  map clusterOf
    (map (fun '(hex, data) =>
            Color.mk hex (Cluster.rgb data) (Cluster.count data) (PctNumber 0)) m)
  = m.
Proof.
  induction m as [| [k [c n]] m IH]; simpl; [reflexivity | now rewrite IH].
Qed.

Lemma sorted_setPercentage (total : Z) (colors : list Color.t) :
  StronglySorted byCountDescending colors ->
  StronglySorted byCountDescending (map (setPercentage total) colors).
Proof.
  induction 1 as [| c l Hs IH Hc]; simpl; constructor; [exact IH |].
  rewrite Forall_map. eapply Forall_impl; [| exact Hc].
  intros a Ha. exact Ha.
Qed.

Lemma rankedColors_perm (this : t) :
  Permutation (map clusterOf (rankedColors this)) (colorMap this).
Proof.
  unfold rankedColors. rewrite withPercentages_map, clusterOf_setPercentage.
  unfold sortColorsByUsage.
  rewrite (Permutation_map clusterOf (Array_sort_perm Color.count _)).
  now rewrite clusterOf_entries.
Qed.

Lemma rankedColors_sorted (this : t) :
  StronglySorted byCountDescending (rankedColors this).
Proof.
  unfold rankedColors. rewrite withPercentages_map.
  apply sorted_setPercentage. apply (Array_sort_sorted Color.count).
Qed.

Lemma rankedColors_length (this : t) :
  List.length (rankedColors this) = List.length (colorMap this).
Proof.
  rewrite <- (length_map clusterOf). apply Permutation_length, rankedColors_perm.
Qed.

(** [slice(0, n)] of the ranked list is the top [n] of the colour map. *)
Lemma slice_top (n : nat) (this : t) :
  TopByCount n (colorMap this) (Array_slice0 n (rankedColors this)).
Proof.
  unfold Array_slice0.
  pose proof (rankedColors_sorted this) as Hs.
  rewrite <- (firstn_skipn n (rankedColors this)) in Hs.
  apply (sorted_app Color.count) in Hs as [Hs Hcross].
  split; [| split].
  - rewrite length_firstn, rankedColors_length. reflexivity.
  - exact Hs.
  - exists (skipn n (rankedColors this)). split; [| exact Hcross].
    rewrite firstn_skipn. apply rankedColors_perm.
Qed.

(** *** Reading a percentage back *)

Lemma substring_app_prefix (s1 s2 : string) :
  substring 0 (String.length s1) (s1 ++ s2) = s1.
Proof.
  induction s1 as [| c s1 IH]; simpl.
  - now destruct s2.
  - now rewrite IH.
Qed.

Lemma substring_app_skip (s1 s2 : string) (k m : nat) :
  substring (String.length s1 + k) m (s1 ++ s2) = substring k m s2.
Proof. induction s1 as [| c s1 IH]; simpl; [reflexivity | exact IH]. Qed.

Lemma get_app_at (s1 s2 : string) (c : ascii) :
  String.get (String.length s1) (s1 ++ String c s2) = Some c.
Proof. induction s1 as [| d s1 IH]; simpl; [reflexivity | exact IH]. Qed.

Lemma length_app (s1 s2 : string) :
  String.length (s1 ++ s2) = (String.length s1 + String.length s2)%nat.
Proof. induction s1 as [| c s1 IH]; simpl; [reflexivity | now rewrite IH]. Qed.

Lemma readDecimal_decimal (n : Z) : 0 <= n -> readDecimal (decimal n) = Some n.
Proof.
  intros Hn. unfold readDecimal, decimal.
  rewrite DecimalString.NilZero.usu.
  - rewrite DecimalN.Unsigned.of_to, Z2N.id by exact Hn. reflexivity.
  - rewrite <- (DecimalN.Unsigned.of_to (Z.to_N n)), DecimalN.Unsigned.to_of.
    apply DecimalFacts.unorm_nonnil.
Qed.

Lemma twoDigits_read (f : Z) :
  0 <= f < 100 ->
  String.length (twoDigits f) = 2%nat /\ readDecimal (twoDigits f) = Some f.
Proof.
  intros Hf.
  assert (H : twoDigitsReadBack f = true).
  { assert (Hb : 0 <= f <= 255) by lia. clear Hf. revert f Hb.
    apply FiniteFacts.forall_byte. vm_compute. reflexivity. }
  unfold twoDigitsReadBack in H.
  destruct (Z.ltb_spec f 100) as [_ | ?]; [| lia].
  apply andb_true_iff in H as [Hl Hv]. apply Nat.eqb_eq in Hl.
  split; [exact Hl |].
  destruct (readDecimal (twoDigits f)) as [v |]; [| discriminate].
  apply Z.eqb_eq in Hv. now subst.
Qed.

Lemma readFixed2_fixed2 (h : Z) : 0 <= h -> readFixed2 (fixed2 h) = Some h.
Proof.
  intros Hh. unfold readFixed2, fixed2.
  set (I := decimal (h / 100)). set (F := twoDigits (h mod 100)).
  assert (Hf : 0 <= h mod 100 < 100) by (apply Z.mod_pos_bound; lia).
  destruct (twoDigits_read _ Hf) as [HlF HrF]. fold F in HlF, HrF.
  assert (Hlen : String.length (I ++ "." ++ F) = (String.length I + 3)%nat).
  { rewrite length_app. simpl. rewrite HlF. reflexivity. }
  rewrite Hlen.
  replace (String.length I + 3 - 3)%nat with (String.length I) by lia.
  replace (String.length I + 3 - 2)%nat with (String.length I + 1)%nat by lia.
  rewrite substring_app_prefix, substring_app_skip.
  change ("." ++ F) with (String "."%char F).
  rewrite get_app_at. cbn [substring].
  assert (HF : substring 0 2 F = F).
  { destruct F as [| a [| b [| c F]]]; try discriminate. reflexivity. }
  rewrite HF, HrF. unfold I. rewrite readDecimal_decimal by (apply Z.div_pos; lia).
  f_equal. pose proof (Z.div_mod h 100). lia.
Qed.

(** *** The sum of the percentages *)

Lemma totalCount_sum (colors : list Color.t) : totalCount colors = sumOfCounts colors.
Proof.
  unfold totalCount.
  assert (H : forall a, fold_left (fun sum c => sum + Color.count c) colors a
                        = a + sumOfCounts colors).
  { induction colors as [| c l IH]; intros a; simpl; [lia |]. rewrite IH. lia. }
  rewrite H. lia.
Qed.

Lemma percentageValue_setPercentage (total : Z) (c : Color.t) :
  0 < total -> 0 <= Color.count c ->
  percentageValue (setPercentage total c) = percentHundredths (Color.count c) total.
Proof.
  intros Ht Hc. unfold percentageValue, setPercentage, percentToFixed2. simpl.
  rewrite readFixed2_fixed2; [reflexivity |].
  unfold percentHundredths. apply Z.div_pos; lia.
Qed.

(** Each percentage is within half a hundredth of the exact share. *)
Lemma percentHundredths_bounds (count total : Z) :
  0 < total ->
  20000 * count - total <= 2 * total * percentHundredths count total
                        <= 20000 * count + total.
Proof.
  intros Ht. unfold percentHundredths.
  pose proof (Z.mul_div_le (20000 * count + total) (2 * total)).
  pose proof (Z.mul_succ_div_gt (20000 * count + total) (2 * total)).
  lia.
Qed.

Lemma sumPercentages_bounds (total : Z) (colors : list Color.t) :
  0 < total -> Forall (fun c => 0 <= Color.count c) colors ->
  let k := Z.of_nat (List.length colors) in
  let sum := sumPercentages (map (setPercentage total) colors) in
  20000 * sumOfCounts colors - k * total <= 2 * total * sum
                                         <= 20000 * sumOfCounts colors + k * total.
Proof.
  intros Ht Hc. induction Hc as [| c l Hc0 _ IH].
  - simpl. lia.
  - cbv zeta in *. cbn [map sumPercentages fold_right sumOfCounts List.length].
    fold (sumPercentages (map (setPercentage total) l)). fold (sumOfCounts l).
    rewrite percentageValue_setPercentage by assumption.
    pose proof (percentHundredths_bounds (Color.count c) total Ht).
    rewrite Nat2Z.inj_succ. lia.
Qed.

(** *** Counts are positive *)

Lemma Map_set_counted (m : ColorMap) (k : string) (v : Cluster.t) :
  Forall counted m -> 1 <= Cluster.count v -> Forall counted (Map_set m k v).
Proof.
  intros Hm Hv. induction Hm as [| [k' v'] m He Hm IH]; simpl.
  - repeat constructor. exact Hv.
  - destruct (String.eqb k' k); constructor; auto.
Qed.

Lemma scan_counted (c : RGB) (t : Z) (m m' : ColorMap) :
  Forall counted m -> scan c t m = Some m' -> Forall counted m'.
Proof.
  revert m'. induction m as [| [k d] m IH]; simpl; intros m' Hm H; [discriminate |].
  inversion Hm as [| ? ? Hd Hm']; subst. unfold counted in Hd. simpl in Hd.
  destruct (areColorsSimilar c (Cluster.rgb d) t).
  - injection H as <-. constructor; [unfold counted; simpl; lia | exact Hm'].
  - destruct (scan c t m) as [m1 |]; [| discriminate]. injection H as <-.
    constructor; [exact Hd | now apply IH].
Qed.

Lemma addColors_counted (observations : list RGB) :
  forall this, Forall counted (colorMap this) ->
               Forall counted (colorMap (addColors this observations)).
Proof.
  induction observations as [| c l IH]; intros this H; [exact H |].
  cbn [addColors fold_left]. change (fold_left _ l ?x) with (addColors x l).
  apply IH. unfold addColor.
  destruct (scan _ _ (colorMap this)) as [m' |] eqn:E; simpl.
  - eapply scan_counted; eassumption.
  - apply Map_set_counted; [exact H | simpl; lia].
Qed.

Lemma rankedColors_counted (this : t) :
  Forall counted (colorMap this) ->
  Forall (fun c => 1 <= Color.count c) (sortColorsByUsage (colorMap this)).
Proof.
  intros H. unfold sortColorsByUsage.
  eapply Permutation_Forall; [symmetry; apply (Array_sort_perm Color.count) |].
  rewrite Forall_map. eapply Forall_impl; [| exact H].
  intros [k d] Hd. exact Hd.
Qed.

Lemma sumOfCounts_nonneg (colors : list Color.t) :
  Forall (fun c => 1 <= Color.count c) colors -> 0 <= sumOfCounts colors.
Proof.
  induction 1 as [| c l Hc _ IH]; simpl; [lia |]. fold (sumOfCounts l). lia.
Qed.

Lemma sumOfCounts_firstn (n : nat) (colors : list Color.t) :
  Forall (fun c => 1 <= Color.count c) colors ->
  sumOfCounts (firstn n colors) <= sumOfCounts colors.
Proof.
  intros H. revert n. induction H as [| c l Hc Hl IH]; intros [| n]; simpl; try lia.
  - fold (sumOfCounts l). pose proof (sumOfCounts_nonneg l Hl). lia.
  - fold (sumOfCounts (firstn n l)). fold (sumOfCounts l). specialize (IH n). lia.
Qed.

Lemma sumOfCounts_positive (colors : list Color.t) :
  Forall (fun c => 1 <= Color.count c) colors -> colors <> [] -> 0 < sumOfCounts colors.
Proof.
  intros H Hne. destruct H as [| c l Hc Hl]; [contradiction |].
  pose proof (sumOfCounts_nonneg l Hl). simpl. fold (sumOfCounts l). lia.
Qed.

(** The percentages of the first [n] ranked colours: never more than
    100.00 plus the rounding, and 100.00 up to the rounding when nothing
    is cut off. *)
Lemma slice_percentages (n : nat) (this : t) :
  Forall counted (colorMap this) ->
  let palette := Array_slice0 n (rankedColors this) in
  palette <> [] ->
  2 * (sumPercentages palette - 10000) <= Z.of_nat (List.length palette)
  /\ ((List.length (colorMap this) <= n)%nat -> SumsTo100 palette).
Proof.
  intros Hc palette Hne.
  pose proof (rankedColors_counted this Hc) as Hpos.
  pose proof (rankedColors_length this) as Hlen.
  unfold palette, Array_slice0, rankedColors in *.
  rewrite withPercentages_map in *. rewrite length_map in Hlen.
  set (sorted := sortColorsByUsage (colorMap this)) in *.
  rewrite totalCount_sum in *. rewrite firstn_map in *.
  assert (Hsne : sorted <> []).
  { intros E. apply Hne. rewrite E. now destruct n. }
  pose proof (sumOfCounts_positive sorted Hpos Hsne) as Ht.
  set (total := sumOfCounts sorted) in *.
  assert (Hfirst : Forall (fun c => 0 <= Color.count c) (firstn n sorted)).
  { pose proof Hpos as Hcut. rewrite <- (firstn_skipn n sorted) in Hcut.
    apply Forall_app in Hcut as [Hcut _].
    eapply Forall_impl; [| exact Hcut]. intros c Hc1. simpl in Hc1. lia. }
  pose proof (sumPercentages_bounds total (firstn n sorted) Ht Hfirst) as Hb.
  cbv zeta in Hb. rewrite length_map.
  set (sum := sumPercentages (map (setPercentage total) (firstn n sorted))) in *.
  set (k := Z.of_nat (List.length (firstn n sorted))) in *.
  pose proof (sumOfCounts_firstn n sorted Hpos) as Hle. fold total in Hle.
  split.
  - nia.
  - intros Hn. unfold SumsTo100. rewrite length_map. fold sum. fold k.
    rewrite firstn_all2 in Hb by lia. nia.
Qed.

(** C3, as stated, fails: a DOM scan that finds 31 pairwise dissimilar
    colours, once each, returns 30 entries of ["3.23"], which sum to 96.90;
    30 entries can account for a rounding error of 0.15 only. *)
Lemma truncated_palette_sum :
  let palette :=
    snd (extractFromCurrentPage constructor
           (map (fun i => rgb (30 * (i mod 8)) (30 * (i / 8)) 0)
                (map Z.of_nat (seq 0 31)))) in
  palette <> []
  /\ List.length palette = 30%nat
  /\ map Color.percentage palette = repeat (PctString "3.23") 30
  /\ sumPercentages palette = 9690
  /\ ~ SumsTo100 palette.
Proof.
  cbv zeta.
  set (palette := snd _).
  assert (Hlen : List.length palette = 30%nat) by (vm_compute; reflexivity).
  assert (Hsum : sumPercentages palette = 9690) by (vm_compute; reflexivity).
  assert (Hpct : map Color.percentage palette = repeat (PctString "3.23") 30)
    by (vm_compute; reflexivity).
  clearbody palette.
  split; [| split; [| split; [| split]]].
  - intros E. rewrite E in Hlen. discriminate.
  - exact Hlen.
  - exact Hpct.
  - exact Hsum.
  - unfold SumsTo100. rewrite Hlen, Hsum. simpl. lia.
Qed.

(** C3, amended. The percentages are shares of the total over all the
    clusters, computed before the palette is cut.  For every extraction
    that returns a non-empty palette, the percentages of the returned
    entries sum to 100.00, up to the rounding of each entry to two
    decimals, when no entry is cut off: always for the SVG adapter, and for
    the image adapter and the DOM scan when there are at most 50
    (respectively 30) clusters.  A palette that is cut sums to no more than
    that. *)
Theorem percentages_sum (extremeLuminance : Z -> Z -> Z -> bool)
    (this : t) (pixels : list pixel) (parsed : list RGB) :
  let image := analyzeImage extremeLuminance this pixels in
  let page := extractFromCurrentPage this parsed in
  let svg := analyzeSVG this parsed in
  (snd svg <> [] -> SumsTo100 (snd svg))
  /\ (snd image <> [] ->
      2 * (sumPercentages (snd image) - 10000) <= Z.of_nat (List.length (snd image))
      /\ ((List.length (colorMap (fst image)) <= 50)%nat -> SumsTo100 (snd image)))
  /\ (snd page <> [] ->
      2 * (sumPercentages (snd page) - 10000) <= Z.of_nat (List.length (snd page))
      /\ ((List.length (colorMap (fst page)) <= 30)%nat -> SumsTo100 (snd page))).
Proof.
  cbv zeta. unfold analyzeImage, extractFromCurrentPage, analyzeSVG. cbn [fst snd].
  assert (Hc : forall l, Forall counted (colorMap (addColors (clear this) l))).
  { intros l. apply addColors_counted. constructor. }
  split; [| split].
  - intros Hne.
    set (st := addColors (clear this) parsed) in *.
    assert (Hall : rankedColors st
                   = Array_slice0 (List.length (colorMap st)) (rankedColors st)).
    { unfold Array_slice0. rewrite firstn_all2; [reflexivity |].
      rewrite rankedColors_length. lia. }
    rewrite Hall in Hne |- *.
    apply (slice_percentages _ st (Hc parsed) Hne). lia.
  - intros Hne. exact (slice_percentages 50 _ (Hc _) Hne).
  - intros Hne. exact (slice_percentages 30 _ (Hc _) Hne).
Qed.

Lemma percentages_sum_witness :
  SumsTo100 (snd (analyzeSVG constructor [rgb 10 10 10; rgb 200 0 0; rgb 0 200 0])).
Proof.
  apply (proj1 (percentages_sum (fun _ _ _ => false) constructor []
                  [rgb 10 10 10; rgb 200 0 0; rgb 0 200 0])).
  discriminate.
Defined.

(** C6. The palette of the image adapter has at most 50 entries, that of
    the DOM scan at most 30, and that of the SVG adapter has one entry for
    every cluster; a capped palette is the top 50 (respectively 30) by count,
    in descending order, of the colour map obtained once all observations
    have been aggregated. *)
Theorem palette_caps (extremeLuminance : Z -> Z -> Z -> bool)
    (this : t) (pixels : list pixel) (parsed : list RGB) :
  let image := analyzeImage extremeLuminance this pixels in
  let page := extractFromCurrentPage this parsed in
  let svg := analyzeSVG this parsed in
  ((List.length (snd image) <= 50)%nat
   /\ fst image = addColors (clear this) (samplePixels extremeLuminance pixels)
   /\ TopByCount 50 (colorMap (fst image)) (snd image))
  /\ ((List.length (snd page) <= 30)%nat
      /\ fst page = addColors (clear this) parsed
      /\ TopByCount 30 (colorMap (fst page)) (snd page))
  /\ (List.length (snd svg) = List.length (colorMap (fst svg))
      /\ fst svg = addColors (clear this) parsed
      /\ StronglySorted byCountDescending (snd svg)
      /\ Permutation (map clusterOf (snd svg)) (colorMap (fst svg))).
Proof.
  cbv zeta. unfold analyzeImage, extractFromCurrentPage, analyzeSVG. cbn [fst snd].
  assert (Hcap : forall n st, (List.length (Array_slice0 n (rankedColors st)) <= n)%nat).
  { intros n st. unfold Array_slice0. rewrite length_firstn. lia. }
  split; [| split].
  - split; [apply Hcap | split; [reflexivity | apply slice_top]].
  - split; [apply Hcap | split; [reflexivity | apply slice_top]].
  - split; [apply rankedColors_length |].
    split; [reflexivity |].
    split; [apply rankedColors_sorted | apply rankedColors_perm].
Qed.

(** C5. The observations (10,10,10) three times and (200,200,200) twice, at
    threshold 30, give exactly two palette entries, in this order: count 3
    with percentage ["60.00"], then count 2 with percentage ["40.00"]. *)
Theorem five_observations :
  let observations :=
    [rgb 10 10 10; rgb 10 10 10; rgb 10 10 10; rgb 200 200 200; rgb 200 200 200] in
  let palette :=
    [Color.mk "#0A0A0A" (rgb 10 10 10) 3 (PctString "60.00");
     Color.mk "#C8C8C8" (rgb 200 200 200) 2 (PctString "40.00")] in
  similarityThreshold constructor = 30
  /\ rankedColors (addColors constructor observations) = palette
  /\ Array_slice0 50 (rankedColors (addColors constructor observations)) = palette
  /\ snd (extractFromCurrentPage constructor observations) = palette
  /\ snd (analyzeSVG constructor observations) = palette.
Proof. repeat split. Qed.

End PaletteFacts.

(** ** app.js: adding a single colour *)

Module AppFacts.
Import Js Utils App Spec.

Lemma existsb_hex_true (key : string) (colors : list Color.t) :
  existsb (fun c => String.eqb (Color.hex c) key) colors = true
  <-> exists c, In c colors /\ Color.hex c = key.
Proof.
  rewrite existsb_exists. split; intros (c & Hin & Hc); exists c; split; auto.
  - now apply String.eqb_eq.
  - now apply String.eqb_eq.
Qed.

Lemma existsb_hex_false (key : string) (colors : list Color.t) :
  existsb (fun c => String.eqb (Color.hex c) key) colors = false
  <-> forall c, In c colors -> Color.hex c <> key.
Proof.
  split.
  - intros H c Hin Hc.
    assert (Ht : existsb (fun c => String.eqb (Color.hex c) key) colors = true)
      by (apply existsb_hex_true; eauto).
    congruence.
  - intros H. apply not_true_is_false. intros Ht.
    apply existsb_hex_true in Ht as (c & Hin & Hc). exact (H c Hin Hc).
Qed.

(** C7, as stated, fails: with ["#FF0000"] in the results, adding
    ["#ff0000"], whose exact string is not in the results, is not
    inserted: it is upper-cased first, found, and reported as already in
    the list. *)
Lemma addSingleColor_folds_case :
  let st := mkState [Color.mk "#FF0000" (rgb 255 0 0) 3 (PctString "100.00")] [] in
  existsb (fun c => String.eqb (Color.hex c) "#ff0000") (currentColors st) = false
  /\ currentColors (addSingleColor st "#ff0000") = currentColors st
  /\ toasts (addSingleColor st "#ff0000") = ["Color already in the list"].
Proof. repeat split. Qed.

(** C7, amended. The hex string of a manual colour is upper-cased and
    compared, as an exact string, with the hex strings of the current
    results.  When it is present the results are unchanged and the toast
    "Color already in the list" is shown; otherwise the colour is inserted
    at the front with the upper-cased hex, count 1 and percentage
    ["100.00"].  An input that differs from a stored upper-case hex in
    letter case only is therefore deduplicated, while a differently-valued
    hex, however similar the colour, is not: ["#FE0000"] and the shorthand
    ["#F00"] are both inserted next to ["#FF0000"]. *)
Theorem addSingleColor_spec (st : state) (hex : string) :
  let key := toUpperCase hex in
  ((exists c, In c (currentColors st) /\ Color.hex c = key) ->
   addSingleColor st hex
   = mkState (currentColors st) (toasts st ++ ["Color already in the list"])%list)
  /\ ((forall c, In c (currentColors st) -> Color.hex c <> key) ->
      addSingleColor st hex
      = mkState (Color.mk key (hexToRgb hex) 1 (PctString "100.00") :: currentColors st)
                (toasts st))
  /\ (let red := mkState [Color.mk "#FF0000" (rgb 255 0 0) 3 (PctString "100.00")] [] in
      List.length (currentColors (addSingleColor red "#FE0000")) = 2%nat
      /\ List.length (currentColors (addSingleColor red "#F00")) = 2%nat
      /\ List.length (currentColors (addSingleColor red "#ff0000")) = 1%nat).
Proof.
  cbv zeta. split; [| split].
  - intros H. apply existsb_hex_true in H. unfold addSingleColor.
    cbn [Color.hex]. rewrite H. reflexivity.
  - intros H. apply existsb_hex_false in H. unfold addSingleColor.
    cbn [Color.hex]. rewrite H. reflexivity.
  - repeat split.
Qed.

Lemma addSingleColor_spec_witness :
  addSingleColor (mkState [Color.mk "#FF0000" (rgb 255 0 0) 3 (PctString "100.00")] [])
    "#00ff00"
  = mkState [Color.mk "#00FF00" (rgb 0 255 0) 1 (PctString "100.00");
             Color.mk "#FF0000" (rgb 255 0 0) 3 (PctString "100.00")] [].
Proof.
  apply (proj1 (proj2 (addSingleColor_spec
                         (mkState [Color.mk "#FF0000" (rgb 255 0 0) 3 (PctString "100.00")] [])
                         "#00ff00"))).
  intros c [<- | []]. discriminate.
Defined.

End AppFacts.

(** ** utils.js: further properties of the conversions *)

Module ExtraUtils.
Import Js JsMore Utils UtilsMore Checks ChecksMore Spec.

(** *** The format of [rgbToHex] *)

Lemma toHex_byte_digits (z : Z) :
  0 <= z <= 255 ->
  exists c1 c2,
    toUpperCase (toHex (Int z)) = String c1 (String c2 "")
    /\ isHexDigit c1 = true /\ isHexDigit c2 = true
    /\ upperChar c1 = c1 /\ upperChar c2 = c2.
Proof.
  intros Hz.
  assert (H : bytePrintsHex z = true).
  { revert z Hz. apply FiniteFacts.forall_byte. vm_compute. reflexivity. }
  unfold bytePrintsHex in H.
  destruct (toUpperCase (toHex (Int z))) as [| c1 [| c2 [| c3 s]]]; try discriminate.
  apply andb_true_iff in H as [H H4]. apply andb_true_iff in H as [H H3].
  apply andb_true_iff in H as [H1 H2].
  apply Ascii.eqb_eq in H3, H4. exists c1, c2. auto.
Qed.

Lemma rgbToHex_shape (x y z : Z) :
  0 <= x <= 255 -> 0 <= y <= 255 -> 0 <= z <= 255 ->
  let hex := rgbToHex (Int x) (Int y) (Int z) in
  String.length hex = 7%nat
  /\ isValidHex hex = true
  /\ toUpperCase hex = hex
  /\ startsWithChar "#" hex = true.
Proof.
  intros Hx Hy Hz.
  destruct (toHex_byte_digits x Hx) as (a1 & a2 & Ea & Ha1 & Ha2 & Ua1 & Ua2).
  destruct (toHex_byte_digits y Hy) as (b1 & b2 & Eb & Hb1 & Hb2 & Ub1 & Ub2).
  destruct (toHex_byte_digits z Hz) as (c1 & c2 & Ec & Hc1 & Hc2 & Uc1 & Uc2).
  cbv zeta. unfold rgbToHex. rewrite !UtilsFacts.toUpperCase_app, Ea, Eb, Ec.
  split; [reflexivity |]. split; [| split; [| reflexivity]].
  - apply UtilsFacts.isValidHex_iff.
    exists (String a1 (String a2 (String b1 (String b2 (String c1 (String c2 "")))))).
    split; [right; reflexivity |]. split; [right; reflexivity |].
    simpl. tauto.
  - simpl. now rewrite Ua1, Ua2, Ub1, Ub2, Uc1, Uc2.
Qed.

(** X1. For channels of [[0,255]], [rgbToHex] returns [#] followed by six
    hexadecimal digits, in upper case: a string of seven characters that
    [isValidHex] accepts and that [toUpperCase] leaves unchanged. *)
Theorem rgbToHex_format (x y z : Z) :
  0 <= x <= 255 -> 0 <= y <= 255 -> 0 <= z <= 255 ->
  let hex := rgbToHex (Int x) (Int y) (Int z) in
  String.length hex = 7%nat
  /\ isValidHex hex = true
  /\ toUpperCase hex = hex
  /\ startsWithChar "#" hex = true.
Proof. exact (rgbToHex_shape x y z). Qed.

Lemma rgbToHex_format_witness :
  String.length (rgbToHex (Int 0) (Int 128) (Int 255)) = 7%nat
  /\ isValidHex (rgbToHex (Int 0) (Int 128) (Int 255)) = true.
Proof.
  pose proof (rgbToHex_format 0 128 255) as H. cbv zeta in H.
  destruct H as (H1 & H2 & _); try lia. split; assumption.
Defined.

(** *** From hex to RGB and back *)

Lemma pair_prints_back (c1 c2 : ascii) :
  isHexDigit c1 = true -> isHexDigit c2 = true ->
  toUpperCase (toHex (parseInt16 (String c1 (String c2 ""))))
  = String (upperChar c1) (String (upperChar c2) "").
Proof.
  intros H1 H2.
  assert (H : pairsPrintBack c1 = true).
  { clear H1. revert c1. apply FiniteFacts.forall_ascii. vm_compute. reflexivity. }
  unfold pairsPrintBack in H. rewrite H1 in H.
  rewrite forallb_forall in H. specialize (H c2 (FiniteFacts.In_allAscii c2)).
  rewrite H2 in H. simpl in H. now apply String.eqb_eq in H.
Qed.

Lemma rgbToHex_hexToRgb_aux (s : string) :
  isValidHex s = true -> String.length s = 7%nat ->
  rgbToHex (r (hexToRgb s)) (g (hexToRgb s)) (b (hexToRgb s)) = toUpperCase s.
Proof.
  intros Hv Hlen. apply UtilsFacts.isValidHex_iff in Hv.
  destruct Hv as (body & Hs & Hb & Hd).
  destruct Hs as [-> | ->]; [rewrite Hlen in Hb; destruct Hb; discriminate |].
  simpl in Hlen. injection Hlen as Hlen.
  destruct body as [| c1 [| c2 [| c3 [| c4 [| c5 [| c6 [| c7 body]]]]]]];
    try discriminate.
  simpl in Hd. destruct Hd as (H1 & H2 & H3 & H4 & H5 & H6 & _).
  unfold hexToRgb, normalizeHex. simpl removeFirst. simpl String.length.
  cbv zeta. simpl Nat.eqb. cbv iota. simpl substring. cbn [r g b].
  unfold rgbToHex. rewrite !UtilsFacts.toUpperCase_app.
  rewrite !pair_prints_back by assumption. reflexivity.
Qed.

(** X2. For a string made of [#] and six hexadecimal digits, converting to
    RGB and back to hex gives the string in upper case. *)
Theorem rgbToHex_hexToRgb (s : string) :
  isValidHex s = true -> String.length s = 7%nat ->
  rgbToHex (r (hexToRgb s)) (g (hexToRgb s)) (b (hexToRgb s)) = toUpperCase s.
Proof. exact (rgbToHex_hexToRgb_aux s). Qed.

Lemma rgbToHex_hexToRgb_witness :
  rgbToHex (r (hexToRgb "#c0ffee")) (g (hexToRgb "#c0ffee")) (b (hexToRgb "#c0ffee"))
  = "#C0FFEE".
Proof. apply (rgbToHex_hexToRgb "#c0ffee"); reflexivity. Defined.

(** *** Shorthand *)

Lemma doubled_digit (c : ascii) (v : Z) :
  hexDigitValue c = Some v ->
  parseInt16 (String c (String c "")) = Int (17 * v) /\ 0 <= v <= 15.
Proof.
  intros Hv.
  assert (H : doubledDigitReads c = true).
  { revert c Hv. intros c _. revert c.
    apply FiniteFacts.forall_ascii. vm_compute. reflexivity. }
  unfold doubledDigitReads in H. rewrite Hv in H.
  destruct (isHexDigit c); [| discriminate].
  destruct (parseInt16 (String c (String c ""))) as [w |]; [| discriminate].
  apply andb_true_iff in H as [H H3]. apply andb_true_iff in H as [H1 H2].
  apply Z.eqb_eq in H1. apply Z.leb_le in H2, H3. subst. split; [reflexivity | lia].
Qed.

(** X3. A three-digit shorthand [#abc] is read as [#aabbcc]: each channel
    is 17 times the value of its digit. *)
Theorem hexToRgb_shorthand (c1 c2 c3 : ascii) (v1 v2 v3 : Z) :
  hexDigitValue c1 = Some v1 -> hexDigitValue c2 = Some v2 -> hexDigitValue c3 = Some v3 ->
  let short := String "#" (String c1 (String c2 (String c3 ""))) in
  let long := String "#" (String c1 (String c1 (String c2 (String c2 (String c3 (String c3 "")))))) in
  hexToRgb short = rgb (17 * v1) (17 * v2) (17 * v3)
  /\ hexToRgb short = hexToRgb long
  /\ RGBColor (hexToRgb short).
Proof.
  intros H1 H2 H3. cbv zeta.
  destruct (doubled_digit c1 v1 H1) as [P1 B1].
  destruct (doubled_digit c2 v2 H2) as [P2 B2].
  destruct (doubled_digit c3 v3 H3) as [P3 B3].
  assert (E : hexToRgb (String "#" (String c1 (String c2 (String c3 ""))))
              = rgb (17 * v1) (17 * v2) (17 * v3)).
  { unfold hexToRgb, normalizeHex. simpl removeFirst. simpl String.length.
    cbv zeta. simpl Nat.eqb. cbv iota. simpl doubleChars. simpl substring.
    now rewrite P1, P2, P3. }
  split; [exact E |]. split.
  - rewrite E. unfold hexToRgb, normalizeHex. simpl removeFirst. simpl String.length.
    cbv zeta. simpl Nat.eqb. cbv iota. simpl substring.
    now rewrite P1, P2, P3.
  - rewrite E. unfold RGBColor, channel, rgb. cbn [r g b].
    repeat split; try (eexists; split; [reflexivity | lia]).
Qed.

Lemma hexToRgb_shorthand_witness : hexToRgb "#f0a" = rgb 255 0 170.
Proof.
  apply (proj1 (hexToRgb_shorthand "f" "0" "a" 15 0 10 eq_refl eq_refl eq_refl)).
Defined.

(** *** Letter case *)

Ltac each_char c := destruct c as [[] [] [] [] [] [] [] []]; vm_compute; reflexivity.

Lemma hexDigitValue_upper (c : ascii) : hexDigitValue (upperChar c) = hexDigitValue c.
Proof. each_char c. Qed.

Lemma isWhiteSpace_upper (c : ascii) : isWhiteSpace (upperChar c) = isWhiteSpace c.
Proof. each_char c. Qed.

Lemma eqb_hash_upper (c : ascii) : Ascii.eqb (upperChar c) "#" = Ascii.eqb c "#".
Proof. each_char c. Qed.

Lemma upperChar_idem (c : ascii) : upperChar (upperChar c) = upperChar c.
Proof. each_char c. Qed.

Lemma length_upper (s : string) : String.length (toUpperCase s) = String.length s.
Proof. induction s as [| c s IH]; simpl; [reflexivity | now rewrite IH]. Qed.

Lemma toUpperCase_idem (s : string) : toUpperCase (toUpperCase s) = toUpperCase s.
Proof.
  induction s as [| c s IH]; simpl; [reflexivity | now rewrite upperChar_idem, IH].
Qed.

Lemma removeFirst_upper (s : string) :
  removeFirst "#" (toUpperCase s) = toUpperCase (removeFirst "#" s).
Proof.
  induction s as [| c s IH]; simpl; [reflexivity |].
  rewrite eqb_hash_upper. destruct (Ascii.eqb c "#"); [reflexivity |].
  simpl. now rewrite IH.
Qed.

Lemma doubleChars_upper (s : string) :
  doubleChars (toUpperCase s) = toUpperCase (doubleChars s).
Proof. induction s as [| c s IH]; simpl; [reflexivity | now rewrite IH]. Qed.

Lemma substring_upper (s : string) :
  forall n m, substring n m (toUpperCase s) = toUpperCase (substring n m s).
Proof.
  induction s as [| c s IH]; intros [| n] [| m]; simpl; try reflexivity;
    now rewrite IH.
Qed.

Lemma normalizeHex_upper (s : string) :
  normalizeHex (toUpperCase s) = toUpperCase (normalizeHex s).
Proof.
  unfold normalizeHex. rewrite removeFirst_upper, length_upper.
  destruct (String.length (removeFirst "#" s) =? 3)%nat; [apply doubleChars_upper | reflexivity].
Qed.

Lemma trimStart_upper (s : string) :
  trimStart (toUpperCase s) = toUpperCase (trimStart s).
Proof.
  induction s as [| c s IH]; simpl; [reflexivity |].
  rewrite isWhiteSpace_upper. destruct (isWhiteSpace c); [exact IH | reflexivity].
Qed.

Lemma hexPrefix_upper (s : string) :
  forall acc, hexPrefix acc (toUpperCase s) = hexPrefix acc s.
Proof.
  induction s as [| c s IH]; intros acc; simpl; [reflexivity |].
  rewrite hexDigitValue_upper. destruct (hexDigitValue c); [apply IH | reflexivity].
Qed.

Lemma strip0x_upper (s : string) :
  hexPrefix None (strip0x (toUpperCase s)) = hexPrefix None (strip0x s).
Proof.
  destruct s as [| c1 s]; [reflexivity |].
  change (toUpperCase (String c1 s)) with (String (upperChar c1) (toUpperCase s)).
  destruct c1 as [[] [] [] [] [] [] [] []];
    try exact (hexPrefix_upper (String _ s) None).
  destruct s as [| c2 s]; [reflexivity |].
  change (toUpperCase (String c2 s)) with (String (upperChar c2) (toUpperCase s)).
  destruct c2 as [[] [] [] [] [] [] [] []];
    first [ exact (hexPrefix_upper s None)
          | exact (hexPrefix_upper (String "0" (String _ s)) None) ].
Qed.

Lemma trimStart_idem (s : string) : trimStart (trimStart s) = trimStart s.
Proof.
  induction s as [| c s IH]; simpl; [reflexivity |].
  destruct (isWhiteSpace c) eqn:E; [exact IH |]. simpl. now rewrite E.
Qed.

Lemma trimStart_head (s : string) (c : ascii) (t : string) :
  trimStart s = String c t -> isWhiteSpace c = false.
Proof.
  induction s as [| d s IH]; simpl; [discriminate |].
  destruct (isWhiteSpace d) eqn:E; [exact IH |]. intros H. injection H as <- _. exact E.
Qed.

Lemma parseInt16_trimStart (s : string) : parseInt16 s = parseInt16 (trimStart s).
Proof. unfold parseInt16. now rewrite trimStart_idem. Qed.

(** [parseInt] on a string that does not start with white space. *)
Lemma parseInt16_head (c : ascii) (t : string) :
  isWhiteSpace c = false ->
  parseInt16 (String c t)
  = if Ascii.eqb c "-"
    then match hexPrefix None (strip0x t) with Some v => Int (-1 * v) | None => NaN end
    else if Ascii.eqb c "+"
    then match hexPrefix None (strip0x t) with Some v => Int (1 * v) | None => NaN end
    else match hexPrefix None (strip0x (String c t)) with
         | Some v => Int (1 * v)
         | None => NaN
         end.
Proof.
  intros H. unfold parseInt16. cbn [trimStart]. rewrite H.
  destruct c as [[] [] [] [] [] [] [] []]; reflexivity.
Qed.

Lemma eqb_minus_upper (c : ascii) : Ascii.eqb (upperChar c) "-" = Ascii.eqb c "-".
Proof. each_char c. Qed.

Lemma eqb_plus_upper (c : ascii) : Ascii.eqb (upperChar c) "+" = Ascii.eqb c "+".
Proof. each_char c. Qed.

Lemma parseInt16_upper (s : string) : parseInt16 (toUpperCase s) = parseInt16 s.
Proof.
  rewrite (parseInt16_trimStart s), (parseInt16_trimStart (toUpperCase s)).
  rewrite trimStart_upper.
  destruct (trimStart s) as [| c t] eqn:E; [reflexivity |].
  apply trimStart_head in E.
  change (toUpperCase (String c t)) with (String (upperChar c) (toUpperCase t)).
  rewrite !parseInt16_head by (rewrite ?isWhiteSpace_upper; exact E).
  rewrite eqb_minus_upper, eqb_plus_upper, (strip0x_upper t).
  change (String (upperChar c) (toUpperCase t)) with (toUpperCase (String c t)).
  now rewrite (strip0x_upper (String c t)).
Qed.

Lemma hexToRgb_upper (s : string) : hexToRgb (toUpperCase s) = hexToRgb s.
Proof.
  unfold hexToRgb. rewrite normalizeHex_upper, !substring_upper, !parseInt16_upper.
  reflexivity.
Qed.

(** X4. [hexToRgb] does not depend on the case of the letters: a string
    and its upper case are read as the same colour. *)
Theorem hexToRgb_case (s : string) : hexToRgb (toUpperCase s) = hexToRgb s.
Proof. exact (hexToRgb_upper s). Qed.

(** *** Similarity *)

Lemma similar_sym (c1 c2 : RGB) (t : Z) :
  areColorsSimilar c1 c2 t = areColorsSimilar c2 c1 t.
Proof.
  destruct c1 as [[x1 |] [y1 |] [z1 |]], c2 as [[x2 |] [y2 |] [z2 |]];
    unfold areColorsSimilar; simpl; try reflexivity.
  replace ((x2 - x1) * (x2 - x1) + (y2 - y1) * (y2 - y1) + (z2 - z1) * (z2 - z1))
    with ((x1 - x2) * (x1 - x2) + (y1 - y2) * (y1 - y2) + (z1 - z2) * (z1 - z2))
    by ring.
  reflexivity.
Qed.

(** X5. Similarity is symmetric, and a colour with a channel that is
    [NaN] is similar to no colour. *)
Theorem areColorsSimilar_sym (c1 c2 : RGB) (t : Z) :
  areColorsSimilar c1 c2 t = areColorsSimilar c2 c1 t
  /\ (areColorsSimilar c1 c2 t = true ->
      exists x1 y1 z1 x2 y2 z2, c1 = rgb x1 y1 z1 /\ c2 = rgb x2 y2 z2).
Proof.
  split; [apply similar_sym |].
  destruct c1 as [[x1 |] [y1 |] [z1 |]], c2 as [[x2 |] [y2 |] [z2 |]];
    unfold areColorsSimilar; simpl; try discriminate.
  intros _. exists x1, y1, z1, x2, y2, z2. split; reflexivity.
Qed.

Lemma areColorsSimilar_sym_witness :
  exists x1 y1 z1 x2 y2 z2, rgb 10 10 10 = rgb x1 y1 z1 /\ rgb 12 12 12 = rgb x2 y2 z2.
Proof.
  apply (proj2 (areColorsSimilar_sym (rgb 10 10 10) (rgb 12 12 12) 30)). reflexivity.
Defined.

(** *** Colour names *)

(** X6. The name of a colour given as the hex code of in-range channels:
    it is White when the three channels are above 200 and Black when the
    three are below 55; a grey level (three equal channels) is White above
    200, Black below 55 and Gray in between. *)
Theorem getColorName_light_dark (x y z : Z) :
  0 <= x <= 255 -> 0 <= y <= 255 -> 0 <= z <= 255 ->
  let name := getColorName (rgbToHex (Int x) (Int y) (Int z)) in
  (200 < x -> 200 < y -> 200 < z -> name = "White")
  /\ (x < 55 -> y < 55 -> z < 55 -> name = "Black")
  /\ (x = y -> y = z ->
      name = if 200 <? x then "White" else if x <? 55 then "Black" else "Gray").
Proof.
  intros Hx Hy Hz. cbv zeta. split; [| split].
  - intros H1 H2 H3. unfold getColorName.
    rewrite UtilsFacts.channels_read_back by assumption. cbn [r g b gt lt].
    assert (E1 : (200 <? x) = true) by now apply Z.ltb_lt.
    assert (E2 : (200 <? y) = true) by now apply Z.ltb_lt.
    assert (E3 : (200 <? z) = true) by now apply Z.ltb_lt.
    assert (E4 : (x <? 100) = false) by (apply Z.ltb_ge; lia).
    assert (E5 : (y <? 100) = false) by (apply Z.ltb_ge; lia).
    assert (E6 : (z <? 100) = false) by (apply Z.ltb_ge; lia).
    rewrite E1, E2, E3, E4, E5, E6. reflexivity.
  - intros H1 H2 H3. unfold getColorName.
    rewrite UtilsFacts.channels_read_back by assumption. cbn [r g b gt lt].
    assert (E1 : (200 <? x) = false) by (apply Z.ltb_ge; lia).
    assert (E2 : (200 <? y) = false) by (apply Z.ltb_ge; lia).
    assert (E3 : (200 <? z) = false) by (apply Z.ltb_ge; lia).
    assert (E4 : (x <? 100) = true) by (apply Z.ltb_lt; lia).
    assert (E5 : (y <? 100) = true) by (apply Z.ltb_lt; lia).
    assert (E6 : (z <? 100) = true) by (apply Z.ltb_lt; lia).
    assert (E7 : (x <? 55) = true) by now apply Z.ltb_lt.
    assert (E8 : (y <? 55) = true) by now apply Z.ltb_lt.
    assert (E9 : (z <? 55) = true) by now apply Z.ltb_lt.
    rewrite E1, E2, E3, E4, E5, E6, E7, E8, E9. reflexivity.
  - intros <- <-.
    assert (H : greyNamed x = true).
    { clear Hy Hz. revert x Hx.
      apply FiniteFacts.forall_byte. vm_compute. reflexivity. }
    unfold greyNamed in H. now apply String.eqb_eq in H.
Qed.

Lemma getColorName_light_dark_witness :
  getColorName (rgbToHex (Int 250) (Int 210) (Int 201)) = "White".
Proof.
  assert (B : forall v, 200 < v <= 255 -> 0 <= v <= 255) by (intros; lia).
  apply (proj1 (getColorName_light_dark 250 210 201
                  (B 250 ltac:(lia)) (B 210 ltac:(lia)) (B 201 ltac:(lia)))); lia.
Defined.

(** X7. A hex string whose red channel cannot be read is named Mixed,
    whatever its other channels: every rule of [getColorName] tests the red
    channel, and a comparison with [NaN] is false. *)
Theorem getColorName_unreadable (hex : string) :
  r (hexToRgb hex) = NaN -> getColorName hex = "Mixed".
Proof.
  intros H. unfold getColorName. rewrite H. reflexivity.
Qed.

Lemma getColorName_unreadable_witness : getColorName "red" = "Mixed".
Proof. apply getColorName_unreadable. reflexivity. Defined.

(** *** File names *)

Lemma sanitizeFilename_chars (filename : string) :
  sanitizeFilename filename = mapChars sanitizeChar filename.
Proof.
  unfold sanitizeFilename.
  induction filename as [| c s IH]; simpl; [reflexivity | now rewrite IH].
Qed.

Lemma sanitizeChar_safe (c : ascii) : isSafeChar (sanitizeChar c) = true.
Proof. each_char c. Qed.

Lemma sanitizeChar_idem (c : ascii) : sanitizeChar (sanitizeChar c) = sanitizeChar c.
Proof. each_char c. Qed.

(** X8. [sanitizeFilename] keeps the length of the name, returns only the
    characters [a-z], [0-9], [_], [-] and [.], and changes nothing in a name
    that it has already sanitized. *)
Theorem sanitizeFilename_safe (filename : string) :
  String.length (sanitizeFilename filename) = String.length filename
  /\ Regex.allChars isSafeChar (sanitizeFilename filename)
  /\ sanitizeFilename (sanitizeFilename filename) = sanitizeFilename filename.
Proof.
  rewrite !sanitizeFilename_chars.
  induction filename as [| c s (IH1 & IH2 & IH3)]; simpl.
  - auto.
  - rewrite IH1, IH3, sanitizeChar_idem, sanitizeChar_safe. auto.
Qed.

End ExtraUtils.

(** ** colorExtractor.js: further properties of the clusterer *)

Module ExtraClusterer.
Import Js Utils ColorExtractor Spec SpecMore ClustererFacts.

Lemma rgb_eta (c : RGB) : mkRGB (r c) (g c) (b c) = c.
Proof. now destruct c. Qed.

(** The two outcomes of a call, with what the scan found. *)
Lemma addColor_outcome (this : t) (c : RGB) :
  wellKeyed this -> RGBColor c ->
  (exists l1 k d l2,
      colorMap this = (l1 ++ (k, d) :: l2)%list
      /\ areColorsSimilar c (Cluster.rgb d) 30 = true
      /\ colorMap (addColor this (r c) (g c) (b c)) = (l1 ++ (k, incremented d) :: l2)%list)
  \/ (Forall (dissimilar c 30) (colorMap this)
      /\ colorMap (addColor this (r c) (g c) (b c))
         = (colorMap this ++ [(rgbToHex (r c) (g c) (b c), Cluster.mk c 1)])%list).
Proof.
  intros Hw Hc.
  destruct (scan c 30 (colorMap this)) as [m' |] eqn:E.
  - left. apply scan_Some in E as (l1 & k & d & l2 & Hm & _ & Hl & Hd).
    exists l1, k, d, l2. split; [exact Hm |]. split; [exact Hd |].
    destruct Hw as [Ht _]. apply addColor_found; rewrite ?Ht; assumption.
  - right. apply scan_None in E. split; [exact E |]. now apply addColor_new.
Qed.

Lemma representatives_outcome (this : t) (c : RGB) :
  wellKeyed this -> RGBColor c ->
  map representative (colorMap (addColor this (r c) (g c) (b c)))
  = map representative (colorMap this)
  \/ (Forall (dissimilar c 30) (colorMap this)
      /\ map representative (colorMap (addColor this (r c) (g c) (b c)))
         = (map representative (colorMap this) ++ [(rgbToHex (r c) (g c) (b c), c)])%list).
Proof.
  intros Hw Hc.
  destruct (addColor_outcome this c Hw Hc)
    as [(l1 & k & d & l2 & Hm & _ & Hm') | [Hd Hm']]; rewrite Hm'.
  - left. rewrite Hm, !map_app. reflexivity.
  - right. split; [exact Hd |]. rewrite map_app. reflexivity.
Qed.

(** An invariant of the extractor that every call on a colour of the data
    model keeps holds after any sequence of such calls. *)
Lemma addColors_invariant (I : t -> Prop) :
  (forall this c, wellKeyed this -> RGBColor c -> I this ->
                  I (addColor this (r c) (g c) (b c))) ->
  forall observations this,
    wellKeyed this -> Forall RGBColor observations -> I this ->
    I (addColors this observations).
Proof.
  intros Hstep observations.
  induction observations as [| c l IH]; intros this Hw Hf Hi; [exact Hi |].
  inversion Hf; subst. cbn [addColors fold_left].
  change (fold_left _ l ?x) with (addColors x l).
  apply IH; [now apply addColor_wellKeyed | assumption | now apply Hstep].
Qed.

(** *** Representatives stay apart, keys stay distinct *)

Lemma ForallOrdPairs_snoc {A : Type} (R : A -> A -> Prop) (l : list A) (x : A) :
  ForallOrdPairs R l -> Forall (fun a => R a x) l -> ForallOrdPairs R (l ++ [x])%list.
Proof.
  induction 1 as [| a l Ha Hl IH]; intros Hx; simpl.
  - repeat constructor.
  - inversion Hx; subst. constructor; [| now apply IH].
    apply Forall_app. split; [exact Ha | now repeat constructor].
Qed.

Lemma map_fst_representative (m : ColorMap) :
  map fst m = map fst (map representative m).
Proof. rewrite map_map. reflexivity. Qed.

Lemma map_rgb_representative (m : ColorMap) :
  map representativeRgb m = map snd (map representative m).
Proof. rewrite map_map. reflexivity. Qed.

Lemma addColor_apart (this : t) (c : RGB) :
  wellKeyed this -> RGBColor c -> apartAndDistinct this ->
  apartAndDistinct (addColor this (r c) (g c) (b c)).
Proof.
  intros Hw Hc [Ha Hn]. unfold apartAndDistinct, Apart in *.
  rewrite map_fst_representative, map_rgb_representative in *.
  destruct (representatives_outcome this c Hw Hc) as [E | [Hd E]]; rewrite E.
  - split; assumption.
  - rewrite !map_app. simpl. split.
    + apply ForallOrdPairs_snoc; [exact Ha |].
      rewrite <- map_rgb_representative, Forall_map.
      eapply Forall_impl; [| exact Hd]. intros e He.
      unfold dissimilar in He. unfold representativeRgb.
      now rewrite ExtraUtils.similar_sym.
    + apply NoDup_app; [exact Hn | repeat constructor; intros [] |].
      intros k Hk [<- | []]. rewrite <- map_fst_representative in Hk.
      destruct Hw as [_ Hkeyed].
      pose proof (dissimilar_fresh c (colorMap this) Hc Hkeyed Hd) as Hfresh.
      apply in_map_iff in Hk as (e & He & Hin).
      rewrite Forall_forall in Hfresh. exact (Hfresh e Hin He).
Qed.

(** X9. After any sequence of observations of the data model, no two
    cluster representatives are similar (any two are at distance 30 or
    more) and no two clusters have the same hex key. *)
Theorem clusters_apart (extractor : t) (observations : list RGB) :
  similarityThreshold extractor = 30 ->
  Forall RGBColor observations ->
  Apart (colorMap (addColors (clear extractor) observations))
  /\ NoDup (map fst (colorMap (addColors (clear extractor) observations))).
Proof.
  intros Ht Hf.
  apply (addColors_invariant apartAndDistinct addColor_apart);
    [now apply wellKeyed_clear | exact Hf |].
  split; simpl; constructor.
Qed.

Lemma clusters_apart_witness :
  Apart (colorMap (addColors (clear constructor) [rgb 10 10 10; rgb 200 0 0; rgb 12 12 12])).
Proof.
  apply (clusters_apart constructor [rgb 10 10 10; rgb 200 0 0; rgb 12 12 12] eq_refl).
  repeat constructor; simpl; eexists; split; try reflexivity; lia.
Defined.

(** *** Every observation has its cluster *)

Lemma Covered_representatives (c : RGB) (m m' : ColorMap) :
  Covered c m -> incl (map representative m) (map representative m') -> Covered c m'.
Proof.
  intros (e & He & Hs) Hincl.
  assert (Hin : In (representative e) (map representative m')).
  { apply Hincl. now apply in_map. }
  apply in_map_iff in Hin as (e' & Hr & He').
  exists e'. split; [exact He' |].
  unfold representative in Hr. injection Hr as _ Hr. now rewrite Hr.
Qed.

Lemma addColor_keeps_representatives (this : t) (c : RGB) :
  wellKeyed this -> RGBColor c ->
  incl (map representative (colorMap this))
       (map representative (colorMap (addColor this (r c) (g c) (b c)))).
Proof.
  intros Hw Hc.
  destruct (representatives_outcome this c Hw Hc) as [E | [_ E]]; rewrite E.
  - apply incl_refl.
  - apply incl_appl, incl_refl.
Qed.

Lemma addColor_covers (this : t) (c : RGB) :
  wellKeyed this -> RGBColor c ->
  Covered c (colorMap (addColor this (r c) (g c) (b c))).
Proof.
  intros Hw Hc.
  destruct (addColor_outcome this c Hw Hc)
    as [(l1 & k & d & l2 & _ & Hd & Hm') | [_ Hm']]; rewrite Hm'.
  - exists (k, incremented d). split; [apply in_elt | exact Hd].
  - exists (rgbToHex (r c) (g c) (b c), Cluster.mk c 1).
    split; [apply in_or_app; right; now left | now apply similar_refl].
Qed.

Lemma addColors_covers (observations : list RGB) :
  forall this, wellKeyed this -> Forall RGBColor observations ->
    incl (map representative (colorMap this))
         (map representative (colorMap (addColors this observations)))
    /\ forall c, In c observations -> Covered c (colorMap (addColors this observations)).
Proof.
  induction observations as [| c l IH]; intros this Hw Hf.
  - split; [apply incl_refl | intros c []].
  - inversion Hf as [| ? ? Hc Hl]; subst. cbn [addColors fold_left].
    change (fold_left _ l ?x) with (addColors x l).
    pose proof (addColor_wellKeyed this c Hw Hc) as Hw1.
    destruct (IH _ Hw1 Hl) as [Hincl Hcov].
    split.
    + exact (incl_tran (addColor_keeps_representatives this c Hw Hc) Hincl).
    + intros c' [<- | Hin]; [| now apply Hcov].
      exact (Covered_representatives _ _ _ (addColor_covers this c Hw Hc) Hincl).
Qed.

(** X10. After any sequence of observations of the data model, every
    observation is similar to the representative of one of the clusters:
    no observed colour is left without a cluster. *)
Theorem observations_covered (extractor : t) (observations : list RGB) (c : RGB) :
  similarityThreshold extractor = 30 ->
  Forall RGBColor observations ->
  In c observations ->
  Covered c (colorMap (addColors (clear extractor) observations)).
Proof.
  intros Ht Hf Hin.
  now apply (addColors_covers observations (clear extractor) (wellKeyed_clear _ Ht) Hf).
Qed.

Lemma observations_covered_witness :
  Covered (rgb 12 12 12)
    (colorMap (addColors (clear constructor) [rgb 10 10 10; rgb 200 0 0; rgb 12 12 12])).
Proof.
  apply (observations_covered constructor
           [rgb 10 10 10; rgb 200 0 0; rgb 12 12 12] (rgb 12 12 12) eq_refl).
  - repeat constructor; simpl; eexists; split; try reflexivity; lia.
  - right. right. left. reflexivity.
Defined.

(** *** The number of clusters *)

Lemma scan_length (c : RGB) (t : Z) (m m' : ColorMap) :
  scan c t m = Some m' -> List.length m' = List.length m.
Proof.
  revert m'. induction m as [| [k d] m IH]; simpl; intros m' H; [discriminate |].
  destruct (areColorsSimilar c (Cluster.rgb d) t).
  - injection H as <-. reflexivity.
  - destruct (scan c t m) as [m1 |]; [| discriminate]. injection H as <-.
    simpl. now rewrite (IH m1 eq_refl).
Qed.

Lemma Map_set_length (m : ColorMap) (k : string) (v : Cluster.t) :
  (1 <= List.length (Map_set m k v) <= List.length m + 1)%nat.
Proof.
  induction m as [| [k' v'] m IH]; simpl; [lia |].
  destruct (String.eqb k' k); simpl; lia.
Qed.

Lemma addColor_length (this : t) (x y z : number) :
  (List.length (colorMap this) <= List.length (colorMap (addColor this x y z))
   <= List.length (colorMap this) + 1)%nat
  /\ (1 <= List.length (colorMap (addColor this x y z)))%nat
  /\ similarityThreshold (addColor this x y z) = similarityThreshold this.
Proof.
  unfold addColor.
  destruct (scan _ _ (colorMap this)) as [m' |] eqn:E; simpl.
  - pose proof (scan_length _ _ _ _ E) as Hl. rewrite Hl.
    split; [lia |]. split; [| reflexivity].
    destruct (colorMap this); [discriminate | simpl; lia].
  - pose proof (Map_set_length (colorMap this) (rgbToHex x y z) (Cluster.mk (mkRGB x y z) 1)).
    assert (List.length (colorMap this) <= List.length (Map_set (colorMap this) (rgbToHex x y z) (Cluster.mk (mkRGB x y z) 1)))%nat.
    { clear. induction (colorMap this) as [| [k' v'] m IH]; simpl; [lia |].
      destruct (String.eqb k' (rgbToHex x y z)); simpl; lia. }
    split; [lia |]. split; [lia | reflexivity].
Qed.

Lemma addColors_length (observations : list RGB) :
  forall this,
    (List.length (colorMap this) <= List.length (colorMap (addColors this observations))
     <= List.length (colorMap this) + List.length observations)%nat
    /\ similarityThreshold (addColors this observations) = similarityThreshold this.
Proof.
  induction observations as [| c l IH]; intros this.
  - simpl. split; [lia | reflexivity].
  - cbn [addColors fold_left]. change (fold_left _ l ?x) with (addColors x l).
    destruct (IH (addColor this (r c) (g c) (b c))) as [Hl Ht].
    destruct (addColor_length this (r c) (g c) (b c)) as (H1 & _ & H3).
    split; [simpl List.length; lia | congruence].
Qed.

(** X11. Whatever the observations, also outside the data model, there
    are never more clusters than observations, there is at least one
    cluster as soon as there is an observation, and the similarity
    threshold is left as it was. *)
Theorem cluster_count (extractor : t) (observations : list RGB) :
  let this := addColors (clear extractor) observations in
  (List.length (colorMap this) <= List.length observations)%nat
  /\ (observations <> [] -> colorMap this <> [])
  /\ similarityThreshold this = similarityThreshold extractor.
Proof.
  cbv zeta. destruct (addColors_length observations (clear extractor)) as [Hl Ht].
  split; [simpl in Hl; lia |]. split; [| exact Ht].
  destruct observations as [| c l]; [congruence | intros _].
  cbn [addColors fold_left]. change (fold_left _ l ?x) with (addColors x l).
  destruct (addColors_length l (addColor (clear extractor) (r c) (g c) (b c))) as [Hl' _].
  destruct (addColor_length (clear extractor) (r c) (g c) (b c)) as (_ & H1 & _).
  intros E. rewrite E in Hl'. simpl in Hl'. lia.
Qed.

Lemma cluster_count_witness :
  colorMap (addColors (clear constructor) [mkRGB NaN NaN NaN; rgb 300 0 0]) <> [].
Proof.
  apply (proj1 (proj2 (cluster_count constructor [mkRGB NaN NaN NaN; rgb 300 0 0]))).
  discriminate.
Defined.

(** *** Order of the observations *)

(** X12. The clustering depends on the order of the observations: of two
    different but similar colours of the data model, the one that is seen
    first becomes the representative of their common cluster. *)
Theorem order_dependence (extractor : t) (c1 c2 : RGB) :
  similarityThreshold extractor = 30 ->
  RGBColor c1 -> RGBColor c2 -> c1 <> c2 ->
  areColorsSimilar c1 c2 30 = true ->
  colorMap (addColors (clear extractor) [c1; c2])
  = [(rgbToHex (r c1) (g c1) (b c1), Cluster.mk c1 2)]
  /\ colorMap (addColors (clear extractor) [c2; c1])
     = [(rgbToHex (r c2) (g c2) (b c2), Cluster.mk c2 2)]
  /\ colorMap (addColors (clear extractor) [c1; c2])
     <> colorMap (addColors (clear extractor) [c2; c1]).
Proof.
  intros Ht H1 H2 Hne Hs.
  assert (Hs' : areColorsSimilar c2 c1 30 = true) by now rewrite ExtraUtils.similar_sym.
  assert (E : forall u v, areColorsSimilar v u 30 = true ->
                colorMap (addColors (clear extractor) [u; v])
                = [(rgbToHex (r u) (g u) (b u), Cluster.mk u 2)]).
  { intros u v Hab. unfold addColors, clear. cbn [fold_left].
    unfold addColor at 2. cbn [colorMap similarityThreshold scan Map_set].
    unfold addColor. cbn [colorMap similarityThreshold scan Cluster.rgb Cluster.count].
    rewrite !rgb_eta, Ht, Hab. reflexivity. }
  rewrite (E c1 c2 Hs'), (E c2 c1 Hs).
  split; [reflexivity |]. split; [reflexivity |].
  intros H. injection H as _ H. exact (Hne H).
Qed.

Lemma order_dependence_witness :
  colorMap (addColors (clear constructor) [rgb 10 10 10; rgb 12 12 12])
  <> colorMap (addColors (clear constructor) [rgb 12 12 12; rgb 10 10 10]).
Proof.
  assert (B : forall v, 0 <= v <= 255 -> RGBColor (rgb v v v)).
  { intros v Hv. repeat split; simpl; eexists; split; try reflexivity; lia. }
  apply (proj2 (proj2 (order_dependence constructor (rgb 10 10 10) (rgb 12 12 12)
                         eq_refl (B 10 ltac:(lia)) (B 12 ltac:(lia))
                         ltac:(discriminate) eq_refl))).
Defined.

(** *** One analysis does not reach the next *)

(** X13. An analysis starts from an empty colour map: the palette of a
    call does not depend on the calls made before it on the same
    extractor. *)
Theorem analyses_independent (extremeLuminance : Z -> Z -> Z -> bool)
    (extractor : t) (before parsed : list RGB) (pixels : list pixel) :
  let used := fst (analyzeSVG extractor before) in
  analyzeSVG used parsed = analyzeSVG extractor parsed
  /\ extractFromCurrentPage used parsed = extractFromCurrentPage extractor parsed
  /\ analyzeImage extremeLuminance used pixels
     = analyzeImage extremeLuminance extractor pixels.
Proof.
  cbv zeta.
  assert (E : clear (fst (analyzeSVG extractor before)) = clear extractor).
  { unfold analyzeSVG, clear. cbn [fst].
    destruct (addColors_length before (mk [] (similarityThreshold extractor))) as [_ Ht].
    unfold clear in Ht. now rewrite Ht. }
  unfold analyzeSVG, extractFromCurrentPage, analyzeImage in *.
  cbn [fst] in *. now rewrite E.
Qed.

End ExtraClusterer.

(** ** colorExtractor.js: further properties of the palette *)

Module ExtraPalette.
Import Js Utils ColorExtractor Spec SpecMore ClustererFacts PaletteFacts.

(** *** The sort is stable *)

Lemma insert_filter {A : Type} (key : A -> Z) (k : Z) (x : A) (l : list A) :
  filter (fun a => key a =? k) (insert (fun a b => key b - key a) x l)
  = filter (fun a => key a =? k) (x :: l).
Proof.
  induction l as [| y l IH]; [reflexivity |].
  cbn [insert]. destruct (key y - key x <=? 0) eqn:E; [reflexivity |].
  apply Z.leb_gt in E. cbn [filter] in *. rewrite IH.
  destruct (key x =? k) eqn:Ex; [| reflexivity].
  apply Z.eqb_eq in Ex.
  assert (Ey : (key y =? k) = false) by (apply Z.eqb_neq; lia).
  now rewrite Ey.
Qed.

Lemma Array_sort_filter {A : Type} (key : A -> Z) (k : Z) (l : list A) :
  filter (fun a => key a =? k) (Array_sort (fun a b => key b - key a) l)
  = filter (fun a => key a =? k) l.
Proof.
  induction l as [| x l IH]; [reflexivity |].
  cbn [Array_sort]. rewrite insert_filter. cbn [filter]. now rewrite IH.
Qed.

(** X14. [sortColorsByUsage] is stable: the clusters that have the same
    count come out in the order in which they were inserted in the map. *)
Theorem sortColorsByUsage_stable (colorMap : ColorMap) (k : Z) :
  map Color.hex (filter (fun c => Color.count c =? k) (sortColorsByUsage colorMap))
  = map fst (filter (fun e => Cluster.count (snd e) =? k) colorMap).
Proof.
  unfold sortColorsByUsage. rewrite Array_sort_filter.
  induction colorMap as [| [hex data] m IH]; [reflexivity |].
  cbn [map filter Color.count snd].
  destruct (Cluster.count data =? k); cbn [map Color.hex fst]; now rewrite IH.
Qed.

(** *** Entries of a palette *)

Lemma Forall_firstn {A : Type} (P : A -> Prop) (n : nat) (l : list A) :
  Forall P l -> Forall P (firstn n l).
Proof.
  intros H. rewrite <- (firstn_skipn n l) in H. now apply Forall_app in H.
Qed.

Lemma keyed_consistent (c : Color.t) :
  keyed (clusterOf c) -> counted (clusterOf c) -> consistentEntry c.
Proof.
  unfold keyed, counted, clusterOf. cbn [fst snd Cluster.rgb Cluster.count].
  intros [Hrgb Hhex] Hcount. unfold consistentEntry.
  split; [exact Hhex |]. split; [exact Hrgb |]. split; [| exact Hcount].
  rewrite Hhex. destruct Hrgb as ((x & -> & Hx) & (y & -> & Hy) & (z & -> & Hz)).
  apply (ExtraUtils.rgbToHex_shape x y z Hx Hy Hz).
Qed.

Lemma slice_consistent (n : nat) (this : t) :
  wellKeyed this -> Forall counted (colorMap this) ->
  Forall consistentEntry (Array_slice0 n (rankedColors this)).
Proof.
  intros [_ Hk] Hc. apply Forall_firstn.
  assert (H : Forall (fun e => keyed e /\ counted e) (map clusterOf (rankedColors this))).
  { eapply Permutation_Forall; [symmetry; apply rankedColors_perm |].
    rewrite Forall_forall in *. intros e He. split; auto. }
  rewrite Forall_map in H. eapply Forall_impl; [| exact H].
  intros c [H1 H2]. now apply keyed_consistent.
Qed.

Lemma everyNth_Forall {A : Type} (P : A -> Prop) (k : nat) (l : list A) :
  Forall P l -> forall skip, Forall P (everyNth k skip l).
Proof.
  induction 1 as [| x l Hx _ IH]; intros [| skip]; simpl; auto.
Qed.

Lemma samplePixels_RGBColor (extremeLuminance : Z -> Z -> Z -> bool) (pixels : list pixel) :
  Forall bytePixel pixels -> Forall RGBColor (samplePixels extremeLuminance pixels).
Proof.
  intros H. unfold samplePixels. rewrite Forall_map.
  apply (everyNth_Forall _ sampleRate) with (skip := O) in H.
  rewrite Forall_forall in *. intros p Hp. apply filter_In in Hp as [Hp _].
  destruct (H p Hp) as (Hr & Hg & Hb & _).
  repeat split; simpl; eexists; split; try reflexivity; assumption.
Qed.

(** X15. For observations of the data model (parsed colours with channels
    in [[0,255]], pixels made of bytes), every entry of the palette of the
    three adapters carries the hex code of its own colour, which
    [isValidHex] accepts, a colour of the data model and a count of at
    least 1. *)
Theorem palette_consistent (extremeLuminance : Z -> Z -> Z -> bool)
    (extractor : t) (pixels : list pixel) (parsed : list RGB) :
  similarityThreshold extractor = 30 ->
  Forall RGBColor parsed -> Forall bytePixel pixels ->
  Forall consistentEntry (snd (analyzeSVG extractor parsed))
  /\ Forall consistentEntry (snd (extractFromCurrentPage extractor parsed))
  /\ Forall consistentEntry (snd (analyzeImage extremeLuminance extractor pixels)).
Proof.
  intros Ht Hp Hb.
  assert (Hall : forall l n, Forall RGBColor l ->
            Forall consistentEntry (Array_slice0 n (rankedColors (addColors (clear extractor) l)))).
  { intros l n Hl. apply slice_consistent.
    - apply addColors_wellKeyed; [now apply wellKeyed_clear | exact Hl].
    - apply addColors_counted. constructor. }
  unfold analyzeSVG, extractFromCurrentPage, analyzeImage. cbn [snd].
  split; [| split].
  - rewrite <- (firstn_all (rankedColors _)). apply (Hall parsed _ Hp).
  - apply (Hall parsed 30%nat Hp).
  - apply (Hall _ 50%nat). now apply samplePixels_RGBColor.
Qed.

Lemma palette_consistent_witness :
  Forall consistentEntry
    (snd (analyzeSVG constructor [rgb 10 10 10; rgb 200 0 0; rgb 12 12 12])).
Proof.
  apply (proj1 (palette_consistent (fun _ _ _ => false) constructor []
                  [rgb 10 10 10; rgb 200 0 0; rgb 12 12 12] eq_refl
                  ltac:(repeat constructor; simpl; eexists; split; try reflexivity; lia)
                  ltac:(constructor))).
Defined.

(** *** Percentages along the palette *)

Lemma percentHundredths_mono (c1 c2 total : Z) :
  0 < total -> c1 <= c2 -> percentHundredths c1 total <= percentHundredths c2 total.
Proof.
  intros Ht Hc. unfold percentHundredths. apply Z.div_le_mono; lia.
Qed.

Lemma percentHundredths_range (count total : Z) :
  0 <= count <= total -> 0 < total -> 0 <= percentHundredths count total <= 10000.
Proof.
  intros Hc Ht. unfold percentHundredths. split.
  - apply Z.div_pos; lia.
  - apply Z.lt_succ_r. apply Z.div_lt_upper_bound; lia.
Qed.

Lemma count_le_sum (colors : list Color.t) (c : Color.t) :
  Forall (fun c => 1 <= Color.count c) colors -> In c colors ->
  Color.count c <= sumOfCounts colors.
Proof.
  induction 1 as [| d l Hd Hl IH]; intros Hin; [destruct Hin |].
  simpl. fold (sumOfCounts l). pose proof (sumOfCounts_nonneg l Hl).
  destruct Hin as [<- | Hin]; [lia |]. specialize (IH Hin). lia.
Qed.

Lemma sorted_percentages (total : Z) (colors : list Color.t) :
  0 < total -> Forall (fun c => 1 <= Color.count c) colors ->
  StronglySorted byCountDescending colors ->
  StronglySorted byPercentageDescending (map (setPercentage total) colors).
Proof.
  intros Ht Hpos Hs. induction Hs as [| c l Hs IH Hc]; simpl; [constructor |].
  inversion Hpos as [| ? ? Hc1 Hl]; subst.
  constructor; [now apply IH |].
  rewrite Forall_map. rewrite Forall_forall in *. intros d Hd.
  unfold byPercentageDescending.
  rewrite !percentageValue_setPercentage by (try assumption; specialize (Hl d Hd); simpl in Hl; lia).
  apply percentHundredths_mono; [exact Ht |]. exact (Hc d Hd).
Qed.

Lemma slice_ranked (n : nat) (this : t) :
  Forall counted (colorMap this) ->
  rankedPercentages (Array_slice0 n (rankedColors this)).
Proof.
  intros Hc. pose proof (rankedColors_counted this Hc) as Hpos.
  unfold rankedColors, Array_slice0. rewrite withPercentages_map, totalCount_sum.
  set (sorted := sortColorsByUsage (colorMap this)) in *.
  destruct sorted as [| c0 rest] eqn:Es.
  { destruct n; simpl; split; constructor. }
  rewrite <- Es in *.
  assert (Ht : 0 < sumOfCounts sorted).
  { apply sumOfCounts_positive; [exact Hpos | rewrite Es; discriminate]. }
  assert (Hs : StronglySorted byCountDescending sorted).
  { apply (Array_sort_sorted Color.count). }
  split.
  - pose proof (sorted_percentages _ _ Ht Hpos Hs) as H.
    rewrite <- (firstn_skipn n (map _ sorted)) in H.
    apply (sorted_app percentageValue) in H as [H _]. exact H.
  - apply Forall_firstn. rewrite Forall_map. rewrite Forall_forall in *.
    intros c Hin. pose proof (Hpos c Hin) as H1. simpl in H1.
    rewrite percentageValue_setPercentage by lia.
    apply percentHundredths_range; [| exact Ht].
    split; [lia |]. apply count_le_sum; [| exact Hin].
    apply Forall_forall. exact Hpos.
Qed.

(** X16. In the palette of each adapter, whatever the observations, the
    percentages are in descending order along the list and each of them is
    between 0.00 and 100.00. *)
Theorem percentages_ranked (extremeLuminance : Z -> Z -> Z -> bool)
    (extractor : t) (pixels : list pixel) (parsed : list RGB) :
  rankedPercentages (snd (analyzeSVG extractor parsed))
  /\ rankedPercentages (snd (extractFromCurrentPage extractor parsed))
  /\ rankedPercentages (snd (analyzeImage extremeLuminance extractor pixels)).
Proof.
  assert (Hc : forall l, Forall counted (colorMap (addColors (clear extractor) l))).
  { intros l. apply addColors_counted. constructor. }
  unfold analyzeSVG, extractFromCurrentPage, analyzeImage. cbn [snd].
  split; [| split].
  - rewrite <- (firstn_all (rankedColors _)). apply (slice_ranked _ _ (Hc parsed)).
  - apply (slice_ranked 30 _ (Hc parsed)).
  - apply (slice_ranked 50 _ (Hc _)).
Qed.

(** *** Pixel sampling *)

Lemma everyNth_nth {A : Type} (k : nat) (l : list A) :
  (1 <= k)%nat ->
  forall skip i, nth_error (everyNth k skip l) i = nth_error l (skip + k * i).
Proof.
  intros Hk. induction l as [| x l IH]; intros skip i.
  - cbn [everyNth]. generalize (skip + k * i)%nat. intros n. now destruct i, n.
  - destruct skip as [| skip]; cbn [everyNth].
    + destruct i as [| i]; [now rewrite Nat.mul_0_r |].
      cbn [nth_error]. rewrite IH.
      replace (0 + k * S i)%nat with (S (k - 1 + k * i)) by lia. reflexivity.
    + rewrite IH. reflexivity.
Qed.

Lemma everyNth_length {A : Type} (k : nat) (l : list A) :
  (1 <= k)%nat ->
  forall skip, (skip < k)%nat ->
    (k * List.length (everyNth k skip l) + skip <= List.length l + k - 1)%nat.
Proof.
  intros Hk. induction l as [| x l IH]; intros skip Hs.
  - simpl. lia.
  - destruct skip as [| skip]; cbn [everyNth List.length].
    + specialize (IH (k - 1)%nat ltac:(lia)). lia.
    + specialize (IH skip ltac:(lia)). lia.
Qed.

(** X17. [analyzeImage] observes every fifth pixel and no other: the
    sample number [i] is pixel [5 i] of the image data, an observation
    always comes from such a pixel, with alpha 128 or more and a
    luminance within the limits, and there are at most a fifth (rounded up)
    as many observations as pixels. *)
Theorem sampling_stride (extremeLuminance : Z -> Z -> Z -> bool) (pixels : list pixel) :
  (forall i, nth_error (everyNth sampleRate 0 pixels) i = nth_error pixels (5 * i))
  /\ (forall c, In c (samplePixels extremeLuminance pixels) ->
        exists i p, nth_error pixels (5 * i) = Some p
                    /\ c = rgb (red p) (green p) (blue p)
                    /\ 128 <= alpha p
                    /\ extremeLuminance (red p) (green p) (blue p) = false)
  /\ (5 * List.length (samplePixels extremeLuminance pixels) <= List.length pixels + 4)%nat.
Proof.
  assert (Hnth : forall i, nth_error (everyNth sampleRate 0 pixels) i
                           = nth_error pixels (5 * i)).
  { intros i. apply (everyNth_nth 5 pixels ltac:(lia) 0%nat i). }
  split; [exact Hnth |]. split.
  - intros c Hc. unfold samplePixels in Hc.
    apply in_map_iff in Hc as (p & <- & Hp). apply filter_In in Hp as [Hp Hkeep].
    apply In_nth_error in Hp as [i Hi]. rewrite Hnth in Hi.
    apply andb_true_iff in Hkeep as [Ha Hl].
    apply negb_true_iff in Ha, Hl. apply Z.ltb_ge in Ha.
    exists i, p. repeat split; auto.
  - unfold samplePixels. rewrite length_map.
    pose proof (filter_length_le
                  (fun p => negb (alpha p <? 128)
                            && negb (extremeLuminance (red p) (green p) (blue p)))
                  (everyNth sampleRate 0 pixels)) as Hf.
    pose proof (everyNth_length 5 pixels ltac:(lia) 0%nat ltac:(lia)) as Hl.
    change sampleRate with 5%nat in *. lia.
Qed.

Lemma sampling_stride_witness :
  exists i p,
    nth_error [mkPixel 1 2 3 255; mkPixel 0 0 0 0; mkPixel 0 0 0 0; mkPixel 0 0 0 0;
               mkPixel 0 0 0 0; mkPixel 9 8 7 200] (5 * i) = Some p
    /\ rgb 9 8 7 = rgb (red p) (green p) (blue p)
    /\ 128 <= alpha p
    /\ (fun _ _ _ => false) (red p) (green p) (blue p) = false.
Proof.
  apply (proj1 (proj2 (sampling_stride (fun _ _ _ => false)
           [mkPixel 1 2 3 255; mkPixel 0 0 0 0; mkPixel 0 0 0 0; mkPixel 0 0 0 0;
            mkPixel 0 0 0 0; mkPixel 9 8 7 200])) (rgb 9 8 7)).
  right. left. reflexivity.
Defined.

Lemma filter_none {A : Type} (f : A -> bool) (l : list A) :
  Forall (fun x => f x = false) l -> filter f l = [].
Proof.
  induction 1 as [| x l Hx _ IH]; simpl; [reflexivity | now rewrite Hx].
Qed.

(** X18. An image in which every pixel is transparent (alpha below 128) or
    of extreme luminance gives no observation: the colour map stays empty
    and the palette is empty, the percentages being computed without any
    division. *)
Theorem analyzeImage_nothing_kept (extremeLuminance : Z -> Z -> Z -> bool)
    (extractor : t) (pixels : list pixel) :
  Forall (skipped extremeLuminance) pixels ->
  samplePixels extremeLuminance pixels = []
  /\ analyzeImage extremeLuminance extractor pixels = (clear extractor, []).
Proof.
  intros H.
  assert (E : samplePixels extremeLuminance pixels = []).
  { unfold samplePixels. rewrite filter_none; [reflexivity |].
    apply everyNth_Forall. eapply Forall_impl; [| exact H].
    intros p [Ha | Hl].
    - apply Z.ltb_lt in Ha. now rewrite Ha.
    - rewrite Hl. apply andb_false_r. }
  split; [exact E |]. unfold analyzeImage. rewrite E. reflexivity.
Qed.

Lemma analyzeImage_nothing_kept_witness :
  analyzeImage (fun _ _ _ => false) constructor [mkPixel 255 0 0 0; mkPixel 0 255 0 127]
  = (clear constructor, []).
Proof.
  apply (proj2 (analyzeImage_nothing_kept (fun _ _ _ => false) constructor
                  [mkPixel 255 0 0 0; mkPixel 0 255 0 127]
                  ltac:(repeat constructor; left; simpl; lia))).
Defined.

End ExtraPalette.

(** ** app.js: further properties *)

Module ExtraApp.
Import Js JsMore Utils UtilsMore App AppMore Spec SpecMore.

(** *** Adding a single colour *)

Lemma addSingleColor_cases (st : state) (hex : string) :
  (existsb (fun c => String.eqb (Color.hex c) (toUpperCase hex)) (currentColors st) = true
   /\ addSingleColor st hex = showToast st "Color already in the list")
  \/ (existsb (fun c => String.eqb (Color.hex c) (toUpperCase hex)) (currentColors st) = false
      /\ addSingleColor st hex
         = mkState (Color.mk (toUpperCase hex) (hexToRgb hex) 1 (PctString "100.00")
                      :: currentColors st) (toasts st)).
Proof.
  unfold addSingleColor. cbn [Color.hex].
  destruct (existsb _ (currentColors st)); [left | right]; split; reflexivity.
Qed.

(** X19. After [addSingleColor] the upper-cased hex is in the results; the
    list grows by at most one entry; hex codes that were pairwise distinct
    stay so; and adding the same hex a second time changes nothing in the
    results. *)
Theorem addSingleColor_once (st : state) (hex : string) :
  let st' := addSingleColor st hex in
  In (toUpperCase hex) (map Color.hex (currentColors st'))
  /\ (List.length (currentColors st) <= List.length (currentColors st')
      <= List.length (currentColors st) + 1)%nat
  /\ (NoDup (map Color.hex (currentColors st)) -> NoDup (map Color.hex (currentColors st')))
  /\ currentColors (addSingleColor st' hex) = currentColors st'.
Proof.
  cbv zeta.
  assert (Hin : In (toUpperCase hex) (map Color.hex (currentColors (addSingleColor st hex)))).
  { destruct (addSingleColor_cases st hex) as [[He ->] | [He ->]]; cbn [currentColors showToast].
    - apply AppFacts.existsb_hex_true in He as (c & Hc & <-). now apply in_map.
    - left. reflexivity. }
  split; [exact Hin |]. split; [| split].
  - destruct (addSingleColor_cases st hex) as [[_ ->] | [_ ->]];
      cbn [currentColors showToast List.length]; lia.
  - intros Hn.
    destruct (addSingleColor_cases st hex) as [[_ ->] | [He ->]];
      cbn [currentColors showToast map Color.hex]; [exact Hn |].
    constructor; [| exact Hn]. intros Hc.
    apply in_map_iff in Hc as (c & Hc & Hcin).
    pose proof (proj1 (AppFacts.existsb_hex_false _ _) He c Hcin). contradiction.
  - destruct (addSingleColor_cases (addSingleColor st hex) hex) as [[_ ->] | [He _]];
      [reflexivity |].
    pose proof (proj1 (AppFacts.existsb_hex_false _ _) He) as Hf.
    apply in_map_iff in Hin as (c & Hc & Hcin). elim (Hf c Hcin Hc).
Qed.

Lemma addSingleColor_once_witness :
  NoDup (map Color.hex (currentColors (addSingleColor (mkState [] []) "#abc"))).
Proof.
  apply (proj1 (proj2 (proj2 (addSingleColor_once (mkState [] []) "#abc")))).
  constructor.
Defined.

(** X20. The entry that [addSingleColor] inserts for a hex that
    [isValidHex] accepts has a colour of the data model, which is the one
    that [hexToRgb] reads from the stored upper-case hex.  The stored hex is
    the canonical code [rgbToHex] of that colour when the input has six
    digits after [#]; a shorthand [#abc] is stored as typed, four characters
    long, and so differs from the canonical code of its colour. *)
Theorem addSingleColor_entry (st : state) (hex : string) :
  isValidHex hex = true ->
  (forall c, In c (currentColors st) -> Color.hex c <> toUpperCase hex) ->
  exists entry,
    currentColors (addSingleColor st hex) = entry :: currentColors st
    /\ Color.hex entry = toUpperCase hex
    /\ RGBColor (Color.rgb entry)
    /\ Color.rgb entry = hexToRgb (Color.hex entry)
    /\ (String.length hex = 7%nat ->
        Color.hex entry
        = rgbToHex (r (Color.rgb entry)) (g (Color.rgb entry)) (b (Color.rgb entry)))
    /\ (String.length hex = 4%nat ->
        Color.hex entry
        <> rgbToHex (r (Color.rgb entry)) (g (Color.rgb entry)) (b (Color.rgb entry))).
Proof.
  intros Hv Hnew.
  destruct (addSingleColor_cases st hex) as [[He _] | [_ E]].
  { apply AppFacts.existsb_hex_true in He as (c & Hc & Hh). elim (Hnew c Hc Hh). }
  exists (Color.mk (toUpperCase hex) (hexToRgb hex) 1 (PctString "100.00")).
  rewrite E. cbn [currentColors Color.hex Color.rgb].
  pose proof (UtilsFacts.hexToRgb_valid hex Hv) as Hrgb.
  split; [reflexivity |]. split; [reflexivity |]. split; [exact Hrgb |].
  split; [now rewrite ExtraUtils.hexToRgb_upper |]. split.
  - intros Hlen. symmetry. now apply ExtraUtils.rgbToHex_hexToRgb_aux.
  - intros Hlen Heq. apply (f_equal String.length) in Heq.
    rewrite ExtraUtils.length_upper, Hlen in Heq.
    destruct (hexToRgb hex) as [x y z].
    destruct Hrgb as ((x' & Ex & Hx) & (y' & Ey & Hy) & (z' & Ez & Hz)).
    cbn [r g b] in *. subst x y z.
    rewrite (proj1 (ExtraUtils.rgbToHex_shape x' y' z' Hx Hy Hz)) in Heq. discriminate.
Qed.

Lemma addSingleColor_entry_witness :
  exists entry,
    currentColors (addSingleColor (mkState [] []) "#f0a") = [entry]
    /\ Color.hex entry = "#F0A"
    /\ Color.rgb entry = rgb 255 0 170.
Proof.
  destruct (addSingleColor_entry (mkState [] []) "#f0a" eq_refl ltac:(intros c []))
    as (entry & E & Hh & _ & Hr & _).
  exists entry. split; [exact E |]. split; [exact Hh |].
  rewrite Hr, Hh. reflexivity.
Defined.

(** *** The manual colour button *)

Lemma isHexDigit_upper (c : ascii) : isHexDigit (upperChar c) = isHexDigit c.
Proof. destruct c as [[] [] [] [] [] [] [] []]; vm_compute; reflexivity. Qed.

Lemma hexDigits_upper (s : string) : hexDigits s -> hexDigits (toUpperCase s).
Proof.
  induction s as [| c s IH]; simpl; [auto |].
  intros [Hc Hs]. rewrite isHexDigit_upper. auto.
Qed.

Lemma isValidHex_upper (s : string) :
  isValidHex s = true -> isValidHex (toUpperCase s) = true.
Proof.
  intros H. apply UtilsFacts.isValidHex_iff in H as (body & Hs & Hl & Hd).
  apply UtilsFacts.isValidHex_iff. exists (toUpperCase body).
  rewrite ExtraUtils.length_upper. split; [| split; [exact Hl | now apply hexDigits_upper]].
  destruct Hs as [-> | ->]; [left | right]; reflexivity.
Qed.

(** X24. The manual colour button keeps the results well formed: when
    every entry has a hex code that [isValidHex] accepts and a colour of the
    data model, so has every entry after a click, whatever was typed; and a
    value that is not a valid hex, once trimmed and given its [#], leaves
    the results as they were and shows the "Invalid color format" toast
    only. *)
Theorem addManualColorClick_valid (st : state) (value : string) :
  (Forall validEntry (currentColors st) ->
   Forall validEntry (currentColors (addManualColorClick st value)))
  /\ (isValidHex (manualHex value) = false ->
      addManualColorClick st value
      = mkState (currentColors st)
                (toasts st ++ ["Invalid color format. Use #RRGGBB or #RGB"])%list).
Proof.
  unfold addManualColorClick. split.
  - intros Hall. destruct (isValidHex (manualHex value)) eqn:Hv; [| exact Hall].
    cbn [showToast currentColors].
    destruct (addSingleColor_cases st (toUpperCase (manualHex value))) as [[_ ->] | [_ ->]];
      cbn [showToast currentColors]; [exact Hall |].
    constructor; [| exact Hall]. unfold validEntry. cbn [Color.hex Color.rgb].
    apply isValidHex_upper in Hv. split.
    + now apply isValidHex_upper.
    + now apply UtilsFacts.hexToRgb_valid.
  - intros Hv. rewrite Hv. reflexivity.
Qed.

Lemma addManualColorClick_valid_witness :
  Forall validEntry (currentColors (addManualColorClick (mkState [] []) "  f0a ")).
Proof.
  apply (proj1 (addManualColorClick_valid (mkState [] []) "  f0a ")). constructor.
Defined.

(** X25. When the typed colour is valid but already in the results, the
    button changes nothing in the results and yet shows two toasts, "Color
    already in the list" and then "Color added". *)
Theorem addManualColorClick_duplicate (st : state) (value : string) :
  isValidHex (manualHex value) = true ->
  (exists c, In c (currentColors st) /\ Color.hex c = toUpperCase (manualHex value)) ->
  addManualColorClick st value
  = mkState (currentColors st)
            (toasts st ++ ["Color already in the list";
                           ("Color added: " ++ toUpperCase (manualHex value))%string])%list.
Proof.
  intros Hv Hin. unfold addManualColorClick. rewrite Hv.
  destruct (addSingleColor_cases st (toUpperCase (manualHex value))) as [[_ ->] | [He _]].
  - unfold showToast. cbn [currentColors toasts]. now rewrite <- app_assoc.
  - rewrite ExtraUtils.toUpperCase_idem in He.
    pose proof (proj1 (AppFacts.existsb_hex_false _ _) He) as Hf.
    destruct Hin as (c & Hc & Hh). elim (Hf c Hc Hh).
Qed.

Lemma addManualColorClick_duplicate_witness :
  addManualColorClick (mkState [Color.mk "#FF0000" (rgb 255 0 0) 3 (PctString "60.00")] [])
    "ff0000"
  = mkState [Color.mk "#FF0000" (rgb 255 0 0) 3 (PctString "60.00")]
            ["Color already in the list"; "Color added: #FF0000"].
Proof.
  apply (addManualColorClick_duplicate
           (mkState [Color.mk "#FF0000" (rgb 255 0 0) 3 (PctString "60.00")] [])
           "ff0000" eq_refl).
  eexists. split; [left; reflexivity | reflexivity].
Defined.

(** *** The choice of the extractor *)

Lemma lower_upper_char (c : ascii) : lowerChar (upperChar c) = lowerChar c.
Proof. destruct c as [[] [] [] [] [] [] [] []]; vm_compute; reflexivity. Qed.

Lemma toLowerCase_upper (s : string) : toLowerCase (toUpperCase s) = toLowerCase s.
Proof.
  induction s as [| c s IH]; simpl; [reflexivity | now rewrite lower_upper_char, IH].
Qed.

Lemma lower_lower_char (c : ascii) : lowerChar (lowerChar c) = lowerChar c.
Proof. destruct c as [[] [] [] [] [] [] [] []]; vm_compute; reflexivity. Qed.

Lemma toLowerCase_idem (s : string) : toLowerCase (toLowerCase s) = toLowerCase s.
Proof.
  induction s as [| c s IH]; simpl; [reflexivity | now rewrite lower_lower_char, IH].
Qed.

(** X26. [handleFile] chooses the extractor without regard to the case of
    the letters of the file name; a file whose MIME type starts with
    [image/] is never rejected, and a file of another type is never given
    to the image or SVG extractor, whatever its name. *)
Theorem chooseExtractor_name_case (fileType name : string) :
  chooseExtractor fileType (toUpperCase name) = chooseExtractor fileType name
  /\ chooseExtractor fileType (toLowerCase name) = chooseExtractor fileType name
  /\ (startsWith "image/" fileType = true ->
      chooseExtractor fileType name <> UnsupportedFileType)
  /\ (startsWith "image/" fileType = false ->
      chooseExtractor fileType name <> ExtractFromSVG
      /\ chooseExtractor fileType name <> ExtractFromImage).
Proof.
  unfold chooseExtractor. rewrite toLowerCase_upper, toLowerCase_idem.
  split; [reflexivity |]. split; [reflexivity |]. split.
  - intros ->. destruct (endsWith ".svg" (toLowerCase name)); discriminate.
  - intros ->.
    destruct (String.eqb fileType "application/pdf" || endsWith ".pdf" (toLowerCase name));
      [split; discriminate |].
    destruct (endsWith ".doc" (toLowerCase name) || endsWith ".docx" (toLowerCase name)
              || endsWith ".ppt" (toLowerCase name) || endsWith ".pptx" (toLowerCase name)
              || endsWith ".xls" (toLowerCase name) || endsWith ".xlsx" (toLowerCase name));
      split; discriminate.
Qed.

Lemma chooseExtractor_name_case_witness :
  chooseExtractor "" "logo.svg" <> ExtractFromSVG.
Proof.
  apply (proj1 (proj2 (proj2 (proj2 (chooseExtractor_name_case "" "logo.svg")))
                  eq_refl)).
Defined.

End ExtraApp.

(** ** colorExtractor.js: [parseColor] *)

Module ExtraCssColor.
Import Js JsMore Utils Spec CssColor.

(** *** Printed numbers *)

Lemma uint_digits (d : Decimal.uint) :
  Regex.allChars isDigit (DecimalString.NilEmpty.string_of_uint d).
Proof. induction d; simpl; auto. Qed.

Lemma decimal_digits (n : Z) :
  Regex.allChars isDigit (decimal n) /\ decimal n <> "".
Proof.
  unfold decimal, DecimalString.NilZero.string_of_uint.
  destruct (N.to_uint (Z.to_N n)) as [| d | d | d | d | d | d | d | d | d | d];
    (split; [| try discriminate]);
    try (simpl; split; [reflexivity | apply uint_digits]).
  simpl. auto.
Qed.

Lemma numberToString_nonneg (x : Z) : 0 <= x -> numberToString (Int x) = decimal x.
Proof.
  intros H. unfold numberToString. destruct (Z.ltb_spec x 0); [lia | reflexivity].
Qed.

Lemma digits_app (d rest : string) :
  Regex.allChars isDigit d -> notDigitHead rest -> digits (d ++ rest) = (d, rest).
Proof.
  intros Hd Hr. induction d as [| c d IH]; cbn [append digits].
  - destruct rest as [| c t]; [reflexivity |]. cbn [digits notDigitHead] in *.
    now rewrite Hr.
  - cbn [Regex.allChars] in Hd. destruct Hd as [Hc Hd]. now rewrite Hc, IH.
Qed.

Lemma capture_app (d rest : string) :
  Regex.allChars isDigit d -> d <> "" -> notDigitHead rest ->
  capture (d ++ rest) = Some (d, rest).
Proof.
  intros Hd Hne Hr. unfold capture. rewrite digits_app by assumption.
  destruct d; [contradiction | reflexivity].
Qed.

Lemma digit_not_space (c : ascii) : isDigit c = true -> isWhiteSpace c = false.
Proof. destruct c as [[] [] [] [] [] [] [] []]; vm_compute; congruence. Qed.

Lemma trimStart_digits (d rest : string) :
  Regex.allChars isDigit d -> d <> "" -> trimStart (d ++ rest) = d ++ rest.
Proof.
  intros Hd Hne. destruct d as [| c d]; [contradiction |].
  cbn [Regex.allChars append trimStart] in *. destruct Hd as [Hc _].
  now rewrite (digit_not_space c Hc).
Qed.

Lemma parseIntDigits_decimal (x : Z) : 0 <= x -> parseIntDigits (decimal x) = Int x.
Proof.
  intros H. unfold parseIntDigits. now rewrite PaletteFacts.readDecimal_decimal.
Qed.

(** *** The pattern on the printed forms *)

Lemma expect_head (c : ascii) (s : string) : expect c (String c s) = Some s.
Proof. unfold expect. now rewrite Ascii.eqb_refl. Qed.

Lemma trimStart_space (s : string) : trimStart (String " " s) = trimStart s.
Proof. reflexivity. Qed.

Lemma matchRgbAt_printed (a : bool) (x y z : Z) (tail : string) :
  notDigitHead tail ->
  matchRgbAt ((if a then "rgba(" else "rgb(")
              ++ decimal x ++ ", " ++ decimal y ++ ", " ++ decimal z ++ tail)
  = Some (decimal x, decimal y, decimal z).
Proof.
  intros Ht.
  destruct (decimal_digits x) as [Dx Nx].
  destruct (decimal_digits y) as [Dy Ny].
  destruct (decimal_digits z) as [Dz Nz].
  unfold matchRgbAt.
  assert (E : andThen (capture (decimal x ++ ", " ++ decimal y ++ ", " ++ decimal z ++ tail))
                (fun '(d1, s) =>
                 andThen (expect "," s) (fun s0 =>
                 andThen (capture (trimStart s0)) (fun '(d2, s1) =>
                 andThen (expect "," s1) (fun s2 =>
                 andThen (capture (trimStart s2)) (fun '(d3, _) => Some (d1, d2, d3))))))
              = Some (decimal x, decimal y, decimal z)).
  { rewrite capture_app by (auto; reflexivity).
    cbn [andThen append]. rewrite expect_head. cbn [andThen].
    rewrite trimStart_space, trimStart_digits, capture_app by (auto; reflexivity).
    cbn [andThen append]. rewrite expect_head. cbn [andThen].
    rewrite trimStart_space, trimStart_digits, capture_app by auto.
    reflexivity. }
  destruct a; exact E.
Qed.

Lemma rgbMatch_printed (a : bool) (x y z : Z) (tail : string) :
  notDigitHead tail ->
  rgbMatch ((if a then "rgba(" else "rgb(")
            ++ decimal x ++ ", " ++ decimal y ++ ", " ++ decimal z ++ tail)
  = Some (decimal x, decimal y, decimal z).
Proof.
  intros Ht.
  pose proof (matchRgbAt_printed a x y z tail Ht) as H.
  destruct a; cbn [append] in *; cbn [rgbMatch]; now rewrite H.
Qed.

Lemma parseColor_printed (computedColor : string -> string) (fuel : nat)
    (a : bool) (x y z : Z) (tail : string) :
  0 <= x -> 0 <= y -> 0 <= z -> notDigitHead tail ->
  parseColor computedColor (S fuel)
    ((if a then "rgba(" else "rgb(")
     ++ decimal x ++ ", " ++ decimal y ++ ", " ++ decimal z ++ tail)
  = Some (rgb x y z).
Proof.
  intros Hx Hy Hz Ht. cbn [parseColor].
  rewrite (rgbMatch_printed a x y z tail Ht).
  now rewrite !parseIntDigits_decimal.
Qed.

(** X21. [parseColor] reads back the printed forms [rgb(x, y, z)] and
    [rgba(x, y, z, a)] of any three non-negative safe integers (at most
    2^53 - 1, where a number is printed in plain decimal and [parseInt] is
    exact): the result is the three integers as they are, also above 255,
    the alpha is ignored, and the document is not consulted. *)
Theorem parseColor_rgb (computedColor : string -> string) (fuel : nat)
    (x y z : Z) (alpha : string) :
  0 <= x <= 9007199254740991 ->
  0 <= y <= 9007199254740991 ->
  0 <= z <= 9007199254740991 ->
  parseColor computedColor (S fuel) (CssColor.rgbString (Int x) (Int y) (Int z))
  = Some (rgb x y z)
  /\ parseColor computedColor (S fuel) (rgbaString (Int x) (Int y) (Int z) alpha)
     = Some (rgb x y z).
Proof.
  intros [Hx _] [Hy _] [Hz _]. unfold CssColor.rgbString, rgbaString.
  rewrite !numberToString_nonneg by assumption. split.
  - apply (parseColor_printed computedColor fuel false x y z ")"); auto. reflexivity.
  - apply (parseColor_printed computedColor fuel true x y z (", " ++ alpha ++ ")")); auto.
    reflexivity.
Qed.

Lemma parseColor_rgb_witness :
  parseColor (fun s => s) 1 (CssColor.rgbString (Int 300) (Int 0) (Int 7)) = Some (rgb 300 0 7).
Proof.
  apply (proj1 (parseColor_rgb (fun s => s) 0 300 0 7 "1"
                  ltac:(lia) ltac:(lia) ltac:(lia))).
Defined.

(** *** Strings that start with [#], and names *)

Lemma rgbMatch_without_r (s : string) : without "r" s -> rgbMatch s = None.
Proof.
  induction s as [| c s IH]; [reflexivity |].
  cbn [without]. intros [Hc Hs]. cbn [rgbMatch].
  unfold matchRgbAt at 1. cbn [expect]. rewrite Hc. cbn [andThen]. now apply IH.
Qed.

Lemma hexDigit_not_r (c : ascii) : isHexDigit c = true -> Ascii.eqb c "r" = false.
Proof. destruct c as [[] [] [] [] [] [] [] []]; vm_compute; congruence. Qed.

Lemma hexDigits_without_r (s : string) : hexDigits s -> without "r" s.
Proof.
  induction s as [| c s IH]; simpl; [auto |].
  intros [Hc Hs]. split; [now apply hexDigit_not_r | now apply IH].
Qed.

Lemma validHex_without_r (s : string) : isValidHex s = true -> without "r" s.
Proof.
  intros H. apply UtilsFacts.isValidHex_iff in H as (body & [-> | ->] & _ & Hd).
  - now apply hexDigits_without_r.
  - split; [reflexivity | now apply hexDigits_without_r].
Qed.

(** X22. For a string that starts with [#], [parseColor] never returns
    [null] and never consults the document.  When the string has no [r] it
    returns what [hexToRgb] reads, so that an unreadable hex such as
    ["#zzz"] gives an object with [NaN] channels; for a string accepted by
    [isValidHex] the result is a colour of the data model. *)
Theorem parseColor_hash (computedColor : string -> string) (fuel : nat) (s : string) :
  startsWithChar "#" s = true ->
  (exists c, parseColor computedColor (S fuel) s = Some c)
  /\ (without "r" s -> parseColor computedColor (S fuel) s = Some (hexToRgb s))
  /\ (isValidHex s = true ->
      parseColor computedColor (S fuel) s = Some (hexToRgb s)
      /\ RGBColor (hexToRgb s)).
Proof.
  intros Hs.
  assert (Hr : without "r" s -> parseColor computedColor (S fuel) s = Some (hexToRgb s)).
  { intros Hw. cbn [parseColor]. now rewrite (rgbMatch_without_r s Hw), Hs. }
  split; [| split].
  - cbn [parseColor]. destruct (rgbMatch s) as [[[d1 d2] d3] |]; [eauto |].
    rewrite Hs. eauto.
  - exact Hr.
  - intros Hv. split; [apply Hr; now apply validHex_without_r |].
    now apply UtilsFacts.hexToRgb_valid.
Qed.

Lemma parseColor_hash_witness :
  parseColor (fun s => s) 1 "#zzz" = Some (mkRGB NaN NaN NaN).
Proof.
  apply (proj1 (proj2 (parseColor_hash (fun s => s) 0 "#zzz" eq_refl))).
  repeat split.
Defined.

Lemma matchRgbAt_without_paren (s : string) : without "(" s -> matchRgbAt s = None.
Proof.
  unfold matchRgbAt.
  destruct s as [| c1 [| c2 [| c3 [| c4 [| c5 s]]]]]; cbn [without expect optional andThen];
    intros H;
    repeat match goal with
           | |- context [Ascii.eqb ?c ?d] =>
               let E := fresh "E" in destruct (Ascii.eqb c d) eqn:E; cbn [andThen expect optional]
           end;
    try reflexivity;
    repeat match goal with
           | H : _ /\ _ |- _ => destruct H
           end;
    congruence.
Qed.

Lemma rgbMatch_without_paren (s : string) : without "(" s -> rgbMatch s = None.
Proof.
  induction s as [| c s IH]; [reflexivity |].
  intros H. cbn [rgbMatch]. rewrite (matchRgbAt_without_paren _ H).
  apply IH. now destruct H.
Qed.

(** X23. A colour name (a string without [(] that does not start with
    [#]) is resolved through the document: when the computed colour is
    printed as [rgb(x, y, z)], [parseColor] returns that colour, after one
    recursive call. *)
Theorem parseColor_named (computedColor : string -> string) (fuel : nat)
    (name : string) (x y z : Z) :
  without "(" name -> startsWithChar "#" name = false ->
  0 <= x -> 0 <= y -> 0 <= z ->
  computedColor name = CssColor.rgbString (Int x) (Int y) (Int z) ->
  parseColor computedColor (S (S fuel)) name = Some (rgb x y z).
Proof.
  intros Hp Hh Hx Hy Hz Hc.
  change (parseColor computedColor (S (S fuel)) name)
    with (match rgbMatch name with
          | Some (d1, d2, d3) =>
              Some (mkRGB (parseIntDigits d1) (parseIntDigits d2) (parseIntDigits d3))
          | None =>
              if startsWithChar "#" name
              then Some (hexToRgb name)
              else parseColor computedColor (S fuel) (computedColor name)
          end).
  rewrite (rgbMatch_without_paren name Hp), Hh, Hc.
  unfold CssColor.rgbString. rewrite !numberToString_nonneg by assumption.
  apply (parseColor_printed computedColor fuel false x y z ")"); auto. reflexivity.
Qed.

Lemma parseColor_named_witness :
  parseColor (fun _ => "rgb(255, 0, 0)") 2 "red" = Some (rgb 255 0 0).
Proof.
  apply (parseColor_named (fun _ => "rgb(255, 0, 0)") 0 "red" 255 0 0);
    try lia; try reflexivity.
  repeat split.
Defined.

End ExtraCssColor.

(** ** app.js: the exported document *)

Module ExtraExport.
Import Js JsMore Utils UtilsMore App Spec CssColor Exporting.

Lemma rgbString_parsed (computedColor : string -> string) (fuel : nat) (c : RGB) :
  RGBColor c ->
  parseColor computedColor (S fuel) (CssColor.rgbString (r c) (g c) (b c)) = Some c.
Proof.
  destruct c as [x y z].
  intros ((x' & Ex & Hx) & (y' & Ey & Hy) & (z' & Ez & Hz)).
  cbn [r g b] in *. subst x y z. unfold CssColor.rgbString.
  rewrite !ExtraCssColor.numberToString_nonneg by lia.
  apply (ExtraCssColor.parseColor_printed computedColor fuel false x' y' z' ")");
    try lia. reflexivity.
Qed.

(** X27. [exportColors] writes nothing when there are no results, and
    shows "No colors to export"; otherwise the document counts the results
    and lists them in their order, one element for each, and the
    [rgbString] of an element whose colour is a colour of the data model is
    read back by [parseColor] as that colour. *)
Theorem exportColors_document (now : string) (st : state) :
  (currentColors st = [] ->
   exportColors now st = (showToast st "No colors to export", None))
  /\ (currentColors st <> [] ->
      exists d,
        exportColors now st = (showToast st "Colors exported successfully!", Some d)
        /\ exportDate d = now
        /\ totalColors d = List.length (currentColors st)
        /\ List.length (colors d) = totalColors d
        /\ map hex (colors d) = map Color.hex (currentColors st)
        /\ map rgb (colors d) = map Color.rgb (currentColors st)
        /\ forall computedColor fuel e,
             In e (colors d) -> RGBColor (rgb e) ->
             parseColor computedColor (S fuel) (rgbString e) = Some (rgb e)).
Proof.
  unfold exportColors. split.
  - intros ->. reflexivity.
  - intros Hne. destruct (currentColors st) as [| c0 l] eqn:E; [congruence |].
    eexists. split; [reflexivity |]. cbn [exportDate totalColors colors].
    split; [reflexivity |]. split; [reflexivity |].
    split; [now rewrite length_map |].
    split; [rewrite map_map; reflexivity |].
    split; [rewrite map_map; reflexivity |].
    intros computedColor fuel e He Hrgb.
    apply in_map_iff in He as (c & <- & _).
    cbn [rgb rgbString exportColor] in *. now apply rgbString_parsed.
Qed.

Lemma exportColors_document_witness :
  exists d,
    exportColors "2026-01-01T00:00:00.000Z"
      (mkState [Color.mk "#0A0A0A" (Spec.rgb 10 10 10) 3 (PctString "100.00")] [])
    = (mkState [Color.mk "#0A0A0A" (Spec.rgb 10 10 10) 3 (PctString "100.00")]
               ["Colors exported successfully!"], Some d)
    /\ map rgbString (colors d) = ["rgb(10, 10, 10)"]
    /\ map usage (colors d) = ["100.00%"]
    /\ map name (colors d) = ["Black"].
Proof.
  destruct (proj2 (exportColors_document "2026-01-01T00:00:00.000Z"
                     (mkState [Color.mk "#0A0A0A" (Spec.rgb 10 10 10) 3 (PctString "100.00")] []))
              ltac:(discriminate)) as (d & E & _).
  exists d. split; [exact E |].
  injection E as <-. repeat split.
Defined.

End ExtraExport.
